(** * Disclosure validation and application synthesis

    A shallow embedding of [tools/disclosure_processor.py] (class
    [DisclosureProcessor]) and of the data model it works on
    ([schemas/disclosure_schemas.py]), followed by the properties of the
    validator, the claim synthesizer and the processing pipeline. *)

From Stdlib Require Import List ZArith NArith Bool Arith Lia.
From Stdlib Require Import Strings.String Strings.Ascii Numbers.DecimalString.
Import ListNotations.

(* ================================================================== *)
(** * Python values *)
(* ================================================================== *)

Module Py.

(** A Python [str] is a sequence of Unicode code points; [len] counts them. *)
Definition char := N.
Definition str := list char.

(** String literals of the source are written [utf8 "..."]: the UTF-8 bytes
    of the literal are decoded into code points. *)
Fixpoint utf8_decode (pending : nat) (acc : N) (bs : list N) : str :=
  match bs with
  | [] => []
  | b :: bs' =>
      match pending with
      | S p =>
          let acc' := (acc * 64 + b mod 64)%N in
          match p with
          | O => acc' :: utf8_decode O 0%N bs'
          | S _ => utf8_decode p acc' bs'
          end
      | O =>
          if (b <? 128)%N then b :: utf8_decode O 0%N bs'
          else if (b <? 224)%N then utf8_decode 1 (b mod 32)%N bs'
          else if (b <? 240)%N then utf8_decode 2 (b mod 16)%N bs'
          else utf8_decode 3 (b mod 8)%N bs'
      end
  end.

Definition utf8 (s : string) : str :=
  utf8_decode O 0%N (map N_of_ascii (list_ascii_of_string s)).

(** ["\n"], i.e. [chr(10)]. *)
Definition nl : str := [10%N].

Definition len {A} (l : list A) : nat := List.length l.

(** Truth value of a string or a list: empty is false. *)
Definition truthy {A} (l : list A) : bool :=
  match l with [] => false | _ :: _ => true end.

(** Truth value of an [Optional[str]]: [None] and [""] are false. *)
Definition truthy_opt {A} (o : option (list A)) : bool :=
  match o with None => false | Some l => truthy l end.

Fixpoint str_eqb (a b : str) : bool :=
  match a, b with
  | [], [] => true
  | x :: a', y :: b' => N.eqb x y && str_eqb a' b'
  | _, _ => false
  end.

(** [str.isspace] for one character (CPython's [_PyUnicode_IsWhitespace]). *)
Definition isspace (c : char) : bool :=
  ((9 <=? c) && (c <=? 13) || (28 <=? c) && (c <=? 32)
   || (c =? 133) || (c =? 160) || (c =? 5760)
   || (8192 <=? c) && (c <=? 8202)
   || (c =? 8232) || (c =? 8233) || (c =? 8239) || (c =? 8287)
   || (c =? 12288))%N.

Fixpoint lstrip (s : str) : str :=
  match s with
  | [] => []
  | c :: s' => if isspace c then lstrip s' else s
  end.

Definition rstrip (s : str) : str := rev (lstrip (rev s)).

(** [s.strip()] *)
Definition strip (s : str) : str := rstrip (lstrip s).

(** [str(i)] for a non-negative [int], as an f-string renders it. *)
Definition str_of_nat (n : nat) : str :=
  map N_of_ascii (list_ascii_of_string (NilEmpty.string_of_uint (Nat.to_uint n))).

(** [sep.join(parts)] *)
Fixpoint join (sep : str) (parts : list str) : str :=
  match parts with
  | [] => []
  | [p] => p
  | p :: ps => p ++ sep ++ join sep ps
  end.

(** [s * n] *)
Fixpoint times (s : str) (n : nat) : str :=
  match n with
  | O => []
  | S n' => s ++ times s n'
  end.

(** [enumerate(xs, start)] *)
Fixpoint enumerate {A} (start : nat) (xs : list A) : list (nat * A) :=
  match xs with
  | [] => []
  | x :: xs' => (start, x) :: enumerate (S start) xs'
  end.

(** [s[:n]] *)
Definition slice_to {A} (n : nat) (s : list A) : list A := firstn n s.

(** [for x in xs: body], the loop variables being threaded as [S]. *)
Definition for_ {A S} (xs : list A) (body : A -> S -> S) (s : S) : S :=
  fold_left (fun s x => body x s) xs s.

(** [f"{o}"] for an [Optional[str]]. *)
Definition fmt_opt (o : option str) : str :=
  match o with
  | Some s => s
  | None => utf8 "None"
  end.

(** [o or default] for an [Optional[str]]. *)
Definition or_else (o : option str) (default : str) : str :=
  match o with
  | Some (c :: s) => c :: s
  | _ => default
  end.

(** [needle in haystack] on strings. *)
Fixpoint startswith (p s : str) : bool :=
  match p, s with
  | [], _ => true
  | x :: p', y :: s' => N.eqb x y && startswith p' s'
  | _ :: _, [] => false
  end.

Fixpoint contains (needle haystack : str) : bool :=
  startswith needle haystack ||
  match haystack with
  | [] => false
  | _ :: h' => contains needle h'
  end.

(** The exception the embedded code can raise: an attribute read on
    [None]. *)
Inductive exn : Type :=
| AttributeError.

Inductive result (A : Type) : Type :=
| Ok (a : A)
| Raise (e : exn).
Arguments Ok {A} a.
Arguments Raise {A} e.

Definition bind {A B} (r : result A) (k : A -> result B) : result B :=
  match r with
  | Ok a => k a
  | Raise e => Raise e
  end.

(** [o.attr] where [o] may be [None]. *)
Definition deref {A} (o : option A) : result A :=
  match o with
  | Some a => Ok a
  | None => Raise AttributeError
  end.

End Py.

Import Py.

Declare Scope py_scope.
Delimit Scope py_scope with py.
Notation "x <- c ;; k" := (Py.bind c (fun x => k))
  (at level 61, c at next level, right associativity) : py_scope.

Open Scope list_scope.
Open Scope py_scope.

(* ================================================================== *)
(** * Data model ([schemas/disclosure_schemas.py]) *)
(* ================================================================== *)

Record TechnicalProblem : Type := {
  description : str;
  existing_solutions : option str;
  limitations : option str
}.

Record TechnicalSolution : Type := {
  overview : str;
  key_steps : list str;
  innovation_points : list str;
  implementation_details : option str
}.

(** The fields of [PatentDisclosure] the processor reads.  The declared
    type of [technical_solution] is [TechnicalSolution]; the validator tests
    it for absence ([if not disclosure.technical_solution]), which only
    [None] satisfies, so the field is an option here. *)
Record PatentDisclosure : Type := {
  title : str;
  patent_type : str;
  inventors : list str;
  applicant_name : str;
  applicant_address : option str;
  contact_phone : option str;
  contact_email : option str;
  technical_field : str;
  background_description : str;
  technical_problems : list TechnicalProblem;
  technical_solution : option TechnicalSolution;
  beneficial_effects : list str;
  embodiments : list str;
  figure_descriptions : list str;
  prior_art_references : list str
}.

(** [completeness_score] is a Python float.  It starts at [100.0] and only
    ever has 5, 10 or 15 subtracted, eleven times at most, so every value it
    takes is an integer between -15 and 100, which binary64 represents
    exactly: the arithmetic is that of [Z]. *)
Record DisclosureValidationResult : Type := {
  is_valid : bool;
  errors : list str;
  warnings : list str;
  suggestions : list str;
  completeness_score : Z
}.

(* ================================================================== *)
(** * The validator ([validate_disclosure], lines 58-141) *)
(* ================================================================== *)

(** The four local variables of [validate_disclosure]. *)
Record ValidationState : Type := {
  st_errors : list str;
  st_warnings : list str;
  st_suggestions : list str;
  st_score : Z
}.

Definition initial_state : ValidationState :=
  {| st_errors := []; st_warnings := []; st_suggestions := [];
     st_score := 100 |}.

(** [errors.append(msg); score -= w] *)
Definition report_error (msg : str) (w : Z) (st : ValidationState) :=
  {| st_errors := st_errors st ++ [msg];
     st_warnings := st_warnings st;
     st_suggestions := st_suggestions st;
     st_score := st_score st - w |}.

(** [warnings.append(msg); score -= w] *)
Definition report_warning (msg : str) (w : Z) (st : ValidationState) :=
  {| st_errors := st_errors st;
     st_warnings := st_warnings st ++ [msg];
     st_suggestions := st_suggestions st;
     st_score := st_score st - w |}.

(** [suggestions.append(msg)] *)
Definition suggest (msg : str) (st : ValidationState) :=
  {| st_errors := st_errors st;
     st_warnings := st_warnings st;
     st_suggestions := st_suggestions st ++ [msg];
     st_score := st_score st |}.

(** [if c: f] *)
Definition when (c : bool) (f : ValidationState -> ValidationState)
  (st : ValidationState) : ValidationState :=
  if c then f st else st.

(** The conditions of the checks, as the source writes them. *)

(* line 74 *)
Definition title_fails (d : PatentDisclosure) : bool :=
  negb (truthy (title d)) || (len (strip (title d)) <? 5).
(* line 78 *)
Definition inventors_fails (d : PatentDisclosure) : bool :=
  negb (truthy (inventors d)) || (len (inventors d) =? 0).
(* line 82 *)
Definition applicant_name_fails (d : PatentDisclosure) : bool :=
  negb (truthy (applicant_name d)).
(* line 86 *)
Definition technical_field_fails (d : PatentDisclosure) : bool :=
  negb (truthy (technical_field d)) || (len (strip (technical_field d)) <? 10).
(* line 90 *)
Definition background_fails (d : PatentDisclosure) : bool :=
  negb (truthy (background_description d))
  || (len (strip (background_description d)) <? 50).
(* line 94 *)
Definition technical_problems_fails (d : PatentDisclosure) : bool :=
  negb (truthy (technical_problems d)) || (len (technical_problems d) =? 0).
(* line 105 *)
Definition beneficial_effects_fails (d : PatentDisclosure) : bool :=
  negb (truthy (beneficial_effects d)) || (len (beneficial_effects d) =? 0).
(* line 110 *)
Definition embodiments_fails (d : PatentDisclosure) : bool :=
  negb (truthy (embodiments d)) || (len (embodiments d) =? 0).
(* line 114 *)
Definition figures_fails (d : PatentDisclosure) : bool :=
  negb (truthy (figure_descriptions d)) || (len (figure_descriptions d) =? 0).
(* line 118 *)
Definition utility_model_figures_fails (d : PatentDisclosure) : bool :=
  str_eqb (patent_type d) (utf8 "utility_model")
  && (len (figure_descriptions d) =? 0).

Definition msg_title : str := utf8 "发明名称过短或为空，至少需要5个字符".
Definition msg_inventors : str := utf8 "必须至少有一位发明人".
Definition msg_applicant_name : str := utf8 "申请人名称不能为空".
Definition msg_technical_field : str := utf8 "技术领域描述过短，至少需要10个字符".
Definition msg_background : str := utf8 "背景技术描述过短，至少需要50个字符".
Definition msg_technical_problems : str := utf8 "必须描述至少一个要解决的技术问题".
Definition msg_solution_absent : str := utf8 "技术方案不能为空".
Definition msg_overview_absent : str := utf8 "技术方案概述不能为空".
Definition msg_beneficial_effects : str := utf8 "必须描述至少一项有益效果".
Definition msg_embodiments : str := utf8 "建议提供至少一个具体实施例".
Definition msg_figures : str := utf8 "建议提供附图说明".
Definition msg_utility_model_figures : str := utf8 "实用新型专利必须有附图说明".
Definition msg_innovation_points : str :=
  utf8 "建议明确列出技术方案的创新点，有助于撰写权利要求书".
Definition msg_prior_art : str :=
  utf8 "建议提供现有技术参考文献，有助于撰写背景技术部分".
Definition msg_contact_email : str := utf8 "建议提供联系邮箱，便于后续沟通".

(** Lines 98-103: [if not solution: ... elif not solution.overview: ...]. *)
Definition check_solution (d : PatentDisclosure) (st : ValidationState) :=
  match technical_solution d with
  | None => report_error msg_solution_absent 15 st
  | Some ts =>
      if negb (truthy (overview ts)) then report_error msg_overview_absent 10 st
      else st
  end.

(** Lines 68-120: the required and the recommended fields. *)
Definition penalty_checks (d : PatentDisclosure) : ValidationState :=
  let st := initial_state in
  let st := when (title_fails d) (report_error msg_title 15) st in
  let st := when (inventors_fails d) (report_error msg_inventors 10) st in
  let st := when (applicant_name_fails d)
              (report_error msg_applicant_name 10) st in
  let st := when (technical_field_fails d)
              (report_error msg_technical_field 10) st in
  let st := when (background_fails d) (report_error msg_background 10) st in
  let st := when (technical_problems_fails d)
              (report_error msg_technical_problems 15) st in
  let st := check_solution d st in
  let st := when (beneficial_effects_fails d)
              (report_error msg_beneficial_effects 10) st in
  let st := when (embodiments_fails d) (report_warning msg_embodiments 5) st in
  let st := when (figures_fails d) (report_warning msg_figures 5) st in
  let st := when (utility_model_figures_fails d)
              (report_error msg_utility_model_figures 10) st in
  st.

(** Lines 122-141.  Line 123 reads
    [disclosure.technical_solution.innovation_points] without a guard. *)
Definition validate_disclosure (d : PatentDisclosure)
  : result DisclosureValidationResult :=
  let st := penalty_checks d in
  ts <- deref (technical_solution d) ;;
  let st := when (len (innovation_points ts) =? 0)
              (suggest msg_innovation_points) st in
  let st := when (len (prior_art_references d) =? 0)
              (suggest msg_prior_art) st in
  let st := when (negb (truthy_opt (contact_email d)))
              (suggest msg_contact_email) st in
  let score := Z.max 0 (Z.min 100 (st_score st)) in
  Ok {| is_valid := len (st_errors st) =? 0;
        errors := st_errors st;
        warnings := st_warnings st;
        suggestions := st_suggestions st;
        completeness_score := score |}.

(* ================================================================== *)
(** * Patent schemas *)
(* ================================================================== *)

(** Modelled from the spec: [schemas/patent_schemas.py] is not among the
    sources.  The records have the fields that [disclosure_processor.py]
    passes to their constructors, reads or assigns; [PatentType] has the
    three members the processor names (spec, section 3: invention,
    utility_model, design). *)
Module PatentSchemas.

Inductive PatentType : Type := INVENTION | UTILITY_MODEL | DESIGN.

Record PatentDraftRequest : Type := {
  invention_description : str;
  technical_field : str;
  background_info : str;
  specific_problems : str;
  solution : str;
  beneficial_effects : str;
  patent_type : PatentType;
  language : str
}.

Record ApplicantInfo : Type := {
  name : str;
  address : str;
  country : str;
  email : option str;
  phone : option str
}.

Record InventorInfo : Type := {
  inventor_name : str;
  inventor_country : str
}.

Record PatentApplication : Type := {
  app_title : str;
  app_patent_type : PatentType;
  applicant : ApplicantInfo;
  app_inventors : list InventorInfo;
  app_technical_field : str;
  brief_description : str;
  invention_content : str
}.

(** [application.title = t] *)
Definition set_title (a : PatentApplication) (t : str) : PatentApplication :=
  {| app_title := t;
     app_patent_type := app_patent_type a;
     applicant := applicant a;
     app_inventors := app_inventors a;
     app_technical_field := app_technical_field a;
     brief_description := brief_description a;
     invention_content := invention_content a |}.

End PatentSchemas.

Import PatentSchemas(PatentType, INVENTION, UTILITY_MODEL, DESIGN,
  PatentDraftRequest, ApplicantInfo, InventorInfo, PatentApplication).

(* ================================================================== *)
(** * The request normalizer ([disclosure_to_patent_request], lines 143-208) *)
(* ================================================================== *)

(** Lines 154-161. *)
Definition problems_text_of (problems : list TechnicalProblem) : str :=
  for_ (enumerate 1 problems) (fun '(i, problem) problems_text =>
    let problems_text :=
      problems_text ++ str_of_nat i ++ utf8 ". " ++ description problem in
    let problems_text :=
      if truthy_opt (existing_solutions problem)
      then problems_text ++ nl ++ utf8 "   现有方案："
             ++ fmt_opt (existing_solutions problem)
      else problems_text in
    let problems_text :=
      if truthy_opt (limitations problem)
      then problems_text ++ nl ++ utf8 "   局限性："
             ++ fmt_opt (limitations problem)
      else problems_text in
    problems_text ++ nl ++ nl) [].

(** Lines 164-176. *)
Definition solution_text_of (ts : TechnicalSolution) : str :=
  let solution_text := overview ts ++ nl ++ nl in
  let solution_text :=
    if truthy (key_steps ts) then
      let solution_text := solution_text ++ utf8 "关键步骤：" ++ nl in
      let solution_text :=
        for_ (enumerate 1 (key_steps ts)) (fun '(i, step) solution_text =>
          solution_text ++ str_of_nat i ++ utf8 ". " ++ step ++ nl)
          solution_text in
      solution_text ++ nl
    else solution_text in
  let solution_text :=
    if truthy (innovation_points ts) then
      let solution_text := solution_text ++ utf8 "创新点：" ++ nl in
      let solution_text :=
        for_ (enumerate 1 (innovation_points ts))
          (fun '(i, point) solution_text =>
            solution_text ++ str_of_nat i ++ utf8 ". " ++ point ++ nl)
          solution_text in
      solution_text ++ nl
    else solution_text in
  if truthy_opt (implementation_details ts)
  then solution_text ++ utf8 "实现细节：" ++ nl
         ++ fmt_opt (implementation_details ts) ++ nl
  else solution_text.

(** Lines 193-197. *)
Definition patent_type_of (s : str) : PatentType :=
  if str_eqb s (utf8 "utility_model") then UTILITY_MODEL
  else if str_eqb s (utf8 "design") then DESIGN
  else INVENTION.

Definition disclosure_to_patent_request (d : PatentDisclosure)
  : result PatentDraftRequest :=
  let problems_text := problems_text_of (technical_problems d) in
  ts <- deref (technical_solution d) ;;
  let solution_text := solution_text_of ts in
  let effects_text :=
    join nl (map (fun effect => utf8 "- " ++ effect) (beneficial_effects d)) in
  let invention_description :=
    strip (nl ++ title d ++ nl ++ nl
           ++ utf8 "技术方案：" ++ nl
           ++ overview ts ++ nl ++ nl
           ++ utf8 "具体实施方式：" ++ nl
           ++ (if truthy (embodiments d) then join nl (embodiments d)
               else utf8 "待补充")
           ++ nl ++ utf8 "        ") in
  let patent_type := patent_type_of (patent_type d) in
  Ok {| PatentSchemas.invention_description := invention_description;
        PatentSchemas.technical_field := technical_field d;
        PatentSchemas.background_info := background_description d;
        PatentSchemas.specific_problems := problems_text;
        PatentSchemas.solution := solution_text;
        PatentSchemas.beneficial_effects := effects_text;
        PatentSchemas.patent_type := patent_type;
        PatentSchemas.language := utf8 "zh" |}.

(* ================================================================== *)
(** * The claim synthesizer ([_generate_claims_from_disclosure], 417-444) *)
(* ================================================================== *)

(** Lines 422-427: the text of claim 1. *)
Definition independent_claim (d : PatentDisclosure) (ts : TechnicalSolution)
  : str :=
  let claim1 := utf8 "1. " ++ title d ++ utf8 "，其特征在于：" ++ nl in
  if truthy (key_steps ts) then
    for_ (enumerate 0 (key_steps ts)) (fun '(i, step) claim1 =>
      claim1 ++ utf8 "    （" ++ str_of_nat (i + 1) ++ utf8 "）" ++ step
        ++ utf8 "；" ++ nl) claim1
  else
    claim1 ++ utf8 "    包括" ++ slice_to 50 (overview ts) ++ utf8 "。".

(** Line 433: the text of a dependent claim derived from an innovation
    point. *)
Definition dependent_claim (d : PatentDisclosure) (i : nat) (point : str)
  : str :=
  str_of_nat i ++ utf8 ". 根据权利要求1所述的" ++ title d
    ++ utf8 "，其特征在于：" ++ point ++ utf8 "。".

(** Lines 437-439: the three default dependent claims. *)
Definition default_claim_2 (d : PatentDisclosure) : str :=
  utf8 "2. 根据权利要求1所述的" ++ title d
    ++ utf8 "，其特征在于：所述技术方案还包括数据预处理步骤。".
Definition default_claim_3 (d : PatentDisclosure) : str :=
  utf8 "3. 根据权利要求1所述的" ++ title d
    ++ utf8 "，其特征在于：所述技术方案还包括结果验证步骤。".
Definition default_claim_4 (d : PatentDisclosure) : str :=
  utf8 "4. 根据权利要求1所述的" ++ title d
    ++ utf8 "，其特征在于：所述技术方案可以应用于多种场景。".

(** Line 442: the system claim, a literal with no placeholder. *)
Definition system_claim : str :=
  utf8 "5. 一种实现权利要求1-4任一项所述方法的系统，其特征在于：包括处理模块、控制模块和输出模块。".

Definition _generate_claims_from_disclosure (d : PatentDisclosure)
  : result (list str) :=
  let claims := [] in
  ts <- deref (technical_solution d) ;;
  let claim1 := independent_claim d ts in
  let claims := claims ++ [claim1] in
  let claims :=
    if truthy (innovation_points ts) then
      for_ (enumerate 2 (slice_to 4 (innovation_points ts)))
        (fun '(i, point) claims => claims ++ [dependent_claim d i point])
        claims
    else
      let claims := claims ++ [default_claim_2 d] in
      let claims := claims ++ [default_claim_3 d] in
      let claims := claims ++ [default_claim_4 d] in
      claims in
  let claims := claims ++ [system_claim] in
  Ok claims.

(* ================================================================== *)
(** * The processing pipeline (lines 210-415) *)
(* ================================================================== *)

(** The pipeline calls the document assembly stage: the external
    [PatentWriter.generate_patent_application] and the processor's own
    [_format_enhanced_application].  Each call is recorded, in order. *)
Inductive event : Type :=
| GeneratePatentApplication
    (request : PatentDraftRequest) (applicant_info : ApplicantInfo)
    (inventor_info : list InventorInfo)
| FormatEnhancedApplication
    (application : PatentApplication) (disclosure : PatentDisclosure).

Definition trace := list event.

(** A computation that may raise and that records the assembly calls it
    makes. *)
Definition proc (A : Type) : Type := trace -> result A * trace.

Definition ret {A} (a : A) : proc A := fun t => (Ok a, t).

Definition lift {A} (r : result A) : proc A := fun t => (r, t).

Definition emit (e : event) : proc unit := fun t => (Ok tt, t ++ [e]).

Definition pbind {A B} (c : proc A) (k : A -> proc B) : proc B :=
  fun t =>
    match c t with
    | (Ok a, t') => k a t'
    | (Raise e, t') => (Raise e, t')
    end.

Notation "x <~ c ;; k" := (pbind c (fun x => k))
  (at level 61, c at next level, right associativity) : py_scope.

(** Run a computation from the empty trace. *)
Definition run {A} (c : proc A) : result A * trace := c [].

(** Lines 237-243. *)
Definition applicant_info_of (d : PatentDisclosure) : ApplicantInfo :=
  {| PatentSchemas.name := applicant_name d;
     PatentSchemas.address := or_else (applicant_address d) (utf8 "待填写");
     PatentSchemas.country := utf8 "中国";
     PatentSchemas.email := contact_email d;
     PatentSchemas.phone := contact_phone d |}.

(** Lines 246-249. *)
Definition inventor_info_of (d : PatentDisclosure) : list InventorInfo :=
  map (fun name =>
         {| PatentSchemas.inventor_name := name;
            PatentSchemas.inventor_country := utf8 "中国" |})
      (inventors d).

Section Pipeline.

(** Modelled from the spec: [tools/patent_writer.py] is not among the
    sources.  Sections 4.4 and 7 give document assembly as a pure operation
    that returns its result directly; [generate_patent_application] is any
    such function. *)
Variable generate_patent_application :
  PatentDraftRequest -> ApplicantInfo -> list InventorInfo -> PatentApplication.

Definition call_patent_writer (request : PatentDraftRequest)
  (applicant_info : ApplicantInfo) (inventor_info : list InventorInfo)
  : proc PatentApplication :=
  _ <~ emit (GeneratePatentApplication request applicant_info inventor_info) ;;
  ret (generate_patent_application request applicant_info inventor_info).

(** Lines 233-261 of [process_disclosure]: what follows the validation
    block. *)
Definition assemble_application (d : PatentDisclosure)
  (validation_result : option DisclosureValidationResult)
  : proc (option PatentApplication * option DisclosureValidationResult) :=
  draft_request <~ lift (disclosure_to_patent_request d) ;;
  let applicant_info := applicant_info_of d in
  let inventor_info := inventor_info_of d in
  application <~ call_patent_writer draft_request applicant_info
                   inventor_info ;;
  let application := PatentSchemas.set_title application (title d) in
  ret (Some application, validation_result).

(** [process_disclosure(disclosure, validate)], lines 210-261. *)
Definition process_disclosure (d : PatentDisclosure) (validate : bool)
  : proc (option PatentApplication * option DisclosureValidationResult) :=
  if validate then
    validation_result <~ lift (validate_disclosure d) ;;
    if negb (is_valid validation_result) then
      ret (None, Some validation_result)
    else
      assemble_application d (Some validation_result)
  else
    assemble_application d None.

(** Lines 308-313. *)
Definition type_name (t : PatentType) : str :=
  match t with
  | INVENTION => utf8 "发明专利"
  | UTILITY_MODEL => utf8 "实用新型专利"
  | DESIGN => utf8 "外观设计专利"
  end.

(** The text [_format_enhanced_application] builds, lines 303-415. *)
Definition format_text (application : PatentApplication)
  (d : PatentDisclosure) : result str :=
  let formatted := times (utf8 "=") 60 ++ nl in
  let formatted := formatted ++ utf8 "           专 利 申 请 文 件" ++ nl in
  let formatted := formatted ++ times (utf8 "=") 60 ++ nl ++ nl in
  let formatted := formatted ++ utf8 "【专利类型】"
    ++ type_name (PatentSchemas.app_patent_type application) ++ nl ++ nl in
  let formatted := formatted ++ times (utf8 "-") 50 ++ nl in
  let formatted := formatted ++ utf8 "【发明名称】" ++ nl
    ++ PatentSchemas.app_title application ++ nl ++ nl in
  let formatted := formatted ++ times (utf8 "-") 50 ++ nl in
  let formatted := formatted ++ utf8 "【申请人】"
    ++ PatentSchemas.name (PatentSchemas.applicant application) ++ nl in
  let formatted := formatted ++ utf8 "【地  址】"
    ++ PatentSchemas.address (PatentSchemas.applicant application) ++ nl in
  let formatted := formatted ++ utf8 "【发明人】"
    ++ join (utf8 ", ")
         (map PatentSchemas.inventor_name
              (PatentSchemas.app_inventors application))
    ++ nl ++ nl in
  let formatted := formatted ++ times (utf8 "-") 50 ++ nl in
  let formatted := formatted ++ utf8 "【技术领域】" ++ nl in
  let formatted := formatted
    ++ PatentSchemas.app_technical_field application ++ nl ++ nl in
  let formatted := formatted ++ times (utf8 "-") 50 ++ nl in
  let formatted := formatted ++ utf8 "【背景技术】" ++ nl in
  let formatted := formatted ++ background_description d ++ nl ++ nl in
  let formatted := formatted ++ times (utf8 "-") 50 ++ nl in
  let formatted := formatted ++ utf8 "【发明内容】" ++ nl ++ nl in
  let formatted := formatted ++ utf8 "一、要解决的技术问题" ++ nl in
  let formatted :=
    for_ (enumerate 1 (technical_problems d)) (fun '(i, problem) formatted =>
      let formatted :=
        formatted ++ str_of_nat i ++ utf8 ". " ++ description problem ++ nl in
      if truthy_opt (limitations problem)
      then formatted ++ utf8 "   现有技术局限性："
             ++ fmt_opt (limitations problem) ++ nl
      else formatted) formatted in
  let formatted := formatted ++ nl in
  let formatted := formatted ++ utf8 "二、技术方案" ++ nl in
  ts <- deref (technical_solution d) ;;
  let formatted := formatted ++ overview ts ++ nl ++ nl in
  let formatted :=
    if truthy (key_steps ts) then
      let formatted := formatted ++ utf8 "具体包括以下步骤：" ++ nl in
      let formatted :=
        for_ (enumerate 1 (key_steps ts)) (fun '(i, step) formatted =>
          formatted ++ utf8 "步骤" ++ str_of_nat i ++ utf8 "：" ++ step ++ nl)
          formatted in
      formatted ++ nl
    else formatted in
  let formatted :=
    if truthy (innovation_points ts) then
      let formatted := formatted ++ utf8 "本发明的创新点在于：" ++ nl in
      let formatted :=
        for_ (enumerate 1 (innovation_points ts))
          (fun '(i, point) formatted =>
            formatted ++ utf8 "（" ++ str_of_nat i ++ utf8 "）" ++ point ++ nl)
          formatted in
      formatted ++ nl
    else formatted in
  let formatted := formatted ++ utf8 "三、有益效果" ++ nl in
  let formatted := formatted
    ++ utf8 "与现有技术相比，本发明具有以下有益效果：" ++ nl in
  let formatted :=
    for_ (enumerate 1 (beneficial_effects d)) (fun '(i, effect) formatted =>
      formatted ++ str_of_nat i ++ utf8 ". " ++ effect ++ nl) formatted in
  let formatted := formatted ++ nl in
  let formatted := formatted ++ times (utf8 "-") 50 ++ nl in
  let formatted := formatted ++ utf8 "【附图说明】" ++ nl in
  let formatted :=
    if truthy (figure_descriptions d) then
      for_ (figure_descriptions d) (fun desc formatted =>
        formatted ++ desc ++ nl) formatted
    else
      formatted ++ PatentSchemas.brief_description application ++ nl in
  let formatted := formatted ++ nl in
  let formatted := formatted ++ times (utf8 "-") 50 ++ nl in
  let formatted := formatted ++ utf8 "【具体实施方式】" ++ nl in
  let formatted := formatted
    ++ utf8 "下面结合附图和实施例对本发明作进一步说明。" ++ nl ++ nl in
  let formatted :=
    if truthy (embodiments d) then
      for_ (enumerate 1 (embodiments d)) (fun '(i, embodiment) formatted =>
        formatted ++ utf8 "实施例" ++ str_of_nat i ++ utf8 "：" ++ nl
          ++ embodiment ++ nl ++ nl) formatted
    else
      formatted ++ PatentSchemas.invention_content application ++ nl ++ nl in
  let formatted :=
    if truthy_opt (implementation_details ts)
    then formatted ++ utf8 "实现细节：" ++ nl
           ++ fmt_opt (implementation_details ts) ++ nl ++ nl
    else formatted in
  let formatted := formatted ++ times (utf8 "-") 50 ++ nl in
  let formatted := formatted ++ utf8 "【权利要求书】" ++ nl ++ nl in
  claims <- _generate_claims_from_disclosure d ;;
  let formatted :=
    for_ claims (fun claim formatted => formatted ++ claim ++ nl ++ nl)
      formatted in
  let formatted := formatted ++ times (utf8 "-") 50 ++ nl in
  let formatted := formatted ++ utf8 "【摘  要】" ++ nl in
  let formatted := formatted ++ utf8 "本发明公开了"
    ++ PatentSchemas.app_title application ++ utf8 "，属于"
    ++ PatentSchemas.app_technical_field application ++ utf8 "。" in
  let formatted := formatted ++ utf8 "本发明要解决的技术问题是"
    ++ match technical_problems d with
       | problem :: _ => description problem
       | [] => utf8 "改进现有技术的不足"
       end
    ++ utf8 "。" in
  let formatted := formatted ++ utf8 "本发明的技术方案是"
    ++ slice_to 100 (overview ts) ++ utf8 "..." in
  let formatted := formatted ++ utf8 "本发明的有益效果是"
    ++ match beneficial_effects d with
       | effect :: _ => effect
       | [] => utf8 "提高了效率"
       end
    ++ utf8 "等。" ++ nl ++ nl in
  let formatted := formatted ++ times (utf8 "=") 60 ++ nl in
  let formatted := formatted ++ utf8 "                    文件结束" ++ nl in
  let formatted := formatted ++ times (utf8 "=") 60 ++ nl in
  Ok formatted.

Definition _format_enhanced_application (application : PatentApplication)
  (d : PatentDisclosure) : proc str :=
  _ <~ emit (FormatEnhancedApplication application d) ;;
  lift (format_text application d).

(** Lines 283-289: the message returned when no application was produced. *)
Definition validation_failure_message
  (validation : option DisclosureValidationResult) : str :=
  let error_msg := utf8 "交底书验证失败：" ++ nl in
  match validation with
  | Some v =>
      let error_msg :=
        for_ (errors v) (fun error error_msg =>
          error_msg ++ utf8 "❌ " ++ error ++ nl) error_msg in
      for_ (warnings v) (fun warning error_msg =>
        error_msg ++ utf8 "⚠️ " ++ warning ++ nl) error_msg
  | None => error_msg
  end.

(** [generate_enhanced_patent(disclosure)], lines 263-294. *)
Definition generate_enhanced_patent (d : PatentDisclosure) : proc str :=
  r <~ process_disclosure d true ;;
  let '(application, validation) := r in
  match application with
  | None => ret (validation_failure_message validation)
  | Some application => _format_enhanced_application application d
  end.

End Pipeline.

(* ================================================================== *)
(** * Notions used to state the properties *)
(* ================================================================== *)

(** [with_f d v] is [d] with field [f] replaced by [v], every other field
    held fixed. *)

Definition with_title (d : PatentDisclosure) (v : str)
  : PatentDisclosure :=
  {| title := v;
     patent_type := patent_type d;
     inventors := inventors d;
     applicant_name := applicant_name d;
     applicant_address := applicant_address d;
     contact_phone := contact_phone d;
     contact_email := contact_email d;
     technical_field := technical_field d;
     background_description := background_description d;
     technical_problems := technical_problems d;
     technical_solution := technical_solution d;
     beneficial_effects := beneficial_effects d;
     embodiments := embodiments d;
     figure_descriptions := figure_descriptions d;
     prior_art_references := prior_art_references d |}.

Definition with_patent_type (d : PatentDisclosure) (v : str)
  : PatentDisclosure :=
  {| title := title d;
     patent_type := v;
     inventors := inventors d;
     applicant_name := applicant_name d;
     applicant_address := applicant_address d;
     contact_phone := contact_phone d;
     contact_email := contact_email d;
     technical_field := technical_field d;
     background_description := background_description d;
     technical_problems := technical_problems d;
     technical_solution := technical_solution d;
     beneficial_effects := beneficial_effects d;
     embodiments := embodiments d;
     figure_descriptions := figure_descriptions d;
     prior_art_references := prior_art_references d |}.

Definition with_inventors (d : PatentDisclosure) (v : list str)
  : PatentDisclosure :=
  {| title := title d;
     patent_type := patent_type d;
     inventors := v;
     applicant_name := applicant_name d;
     applicant_address := applicant_address d;
     contact_phone := contact_phone d;
     contact_email := contact_email d;
     technical_field := technical_field d;
     background_description := background_description d;
     technical_problems := technical_problems d;
     technical_solution := technical_solution d;
     beneficial_effects := beneficial_effects d;
     embodiments := embodiments d;
     figure_descriptions := figure_descriptions d;
     prior_art_references := prior_art_references d |}.

Definition with_applicant_name (d : PatentDisclosure) (v : str)
  : PatentDisclosure :=
  {| title := title d;
     patent_type := patent_type d;
     inventors := inventors d;
     applicant_name := v;
     applicant_address := applicant_address d;
     contact_phone := contact_phone d;
     contact_email := contact_email d;
     technical_field := technical_field d;
     background_description := background_description d;
     technical_problems := technical_problems d;
     technical_solution := technical_solution d;
     beneficial_effects := beneficial_effects d;
     embodiments := embodiments d;
     figure_descriptions := figure_descriptions d;
     prior_art_references := prior_art_references d |}.

Definition with_technical_field (d : PatentDisclosure) (v : str)
  : PatentDisclosure :=
  {| title := title d;
     patent_type := patent_type d;
     inventors := inventors d;
     applicant_name := applicant_name d;
     applicant_address := applicant_address d;
     contact_phone := contact_phone d;
     contact_email := contact_email d;
     technical_field := v;
     background_description := background_description d;
     technical_problems := technical_problems d;
     technical_solution := technical_solution d;
     beneficial_effects := beneficial_effects d;
     embodiments := embodiments d;
     figure_descriptions := figure_descriptions d;
     prior_art_references := prior_art_references d |}.

Definition with_background_description (d : PatentDisclosure) (v : str)
  : PatentDisclosure :=
  {| title := title d;
     patent_type := patent_type d;
     inventors := inventors d;
     applicant_name := applicant_name d;
     applicant_address := applicant_address d;
     contact_phone := contact_phone d;
     contact_email := contact_email d;
     technical_field := technical_field d;
     background_description := v;
     technical_problems := technical_problems d;
     technical_solution := technical_solution d;
     beneficial_effects := beneficial_effects d;
     embodiments := embodiments d;
     figure_descriptions := figure_descriptions d;
     prior_art_references := prior_art_references d |}.

Definition with_technical_problems (d : PatentDisclosure) (v : list TechnicalProblem)
  : PatentDisclosure :=
  {| title := title d;
     patent_type := patent_type d;
     inventors := inventors d;
     applicant_name := applicant_name d;
     applicant_address := applicant_address d;
     contact_phone := contact_phone d;
     contact_email := contact_email d;
     technical_field := technical_field d;
     background_description := background_description d;
     technical_problems := v;
     technical_solution := technical_solution d;
     beneficial_effects := beneficial_effects d;
     embodiments := embodiments d;
     figure_descriptions := figure_descriptions d;
     prior_art_references := prior_art_references d |}.

Definition with_technical_solution (d : PatentDisclosure) (v : option TechnicalSolution)
  : PatentDisclosure :=
  {| title := title d;
     patent_type := patent_type d;
     inventors := inventors d;
     applicant_name := applicant_name d;
     applicant_address := applicant_address d;
     contact_phone := contact_phone d;
     contact_email := contact_email d;
     technical_field := technical_field d;
     background_description := background_description d;
     technical_problems := technical_problems d;
     technical_solution := v;
     beneficial_effects := beneficial_effects d;
     embodiments := embodiments d;
     figure_descriptions := figure_descriptions d;
     prior_art_references := prior_art_references d |}.

Definition with_beneficial_effects (d : PatentDisclosure) (v : list str)
  : PatentDisclosure :=
  {| title := title d;
     patent_type := patent_type d;
     inventors := inventors d;
     applicant_name := applicant_name d;
     applicant_address := applicant_address d;
     contact_phone := contact_phone d;
     contact_email := contact_email d;
     technical_field := technical_field d;
     background_description := background_description d;
     technical_problems := technical_problems d;
     technical_solution := technical_solution d;
     beneficial_effects := v;
     embodiments := embodiments d;
     figure_descriptions := figure_descriptions d;
     prior_art_references := prior_art_references d |}.

Definition with_embodiments (d : PatentDisclosure) (v : list str)
  : PatentDisclosure :=
  {| title := title d;
     patent_type := patent_type d;
     inventors := inventors d;
     applicant_name := applicant_name d;
     applicant_address := applicant_address d;
     contact_phone := contact_phone d;
     contact_email := contact_email d;
     technical_field := technical_field d;
     background_description := background_description d;
     technical_problems := technical_problems d;
     technical_solution := technical_solution d;
     beneficial_effects := beneficial_effects d;
     embodiments := v;
     figure_descriptions := figure_descriptions d;
     prior_art_references := prior_art_references d |}.

Definition with_figure_descriptions (d : PatentDisclosure) (v : list str)
  : PatentDisclosure :=
  {| title := title d;
     patent_type := patent_type d;
     inventors := inventors d;
     applicant_name := applicant_name d;
     applicant_address := applicant_address d;
     contact_phone := contact_phone d;
     contact_email := contact_email d;
     technical_field := technical_field d;
     background_description := background_description d;
     technical_problems := technical_problems d;
     technical_solution := technical_solution d;
     beneficial_effects := beneficial_effects d;
     embodiments := embodiments d;
     figure_descriptions := v;
     prior_art_references := prior_art_references d |}.

Definition with_contact_email (d : PatentDisclosure) (v : option str)
  : PatentDisclosure :=
  {| title := title d;
     patent_type := patent_type d;
     inventors := inventors d;
     applicant_name := applicant_name d;
     applicant_address := applicant_address d;
     contact_phone := contact_phone d;
     contact_email := v;
     technical_field := technical_field d;
     background_description := background_description d;
     technical_problems := technical_problems d;
     technical_solution := technical_solution d;
     beneficial_effects := beneficial_effects d;
     embodiments := embodiments d;
     figure_descriptions := figure_descriptions d;
     prior_art_references := prior_art_references d |}.

Definition with_prior_art_references (d : PatentDisclosure) (v : list str)
  : PatentDisclosure :=
  {| title := title d;
     patent_type := patent_type d;
     inventors := inventors d;
     applicant_name := applicant_name d;
     applicant_address := applicant_address d;
     contact_phone := contact_phone d;
     contact_email := contact_email d;
     technical_field := technical_field d;
     background_description := background_description d;
     technical_problems := technical_problems d;
     technical_solution := technical_solution d;
     beneficial_effects := beneficial_effects d;
     embodiments := embodiments d;
     figure_descriptions := figure_descriptions d;
     prior_art_references := v |}.

Definition with_innovation_points (ts : TechnicalSolution) (v : list str)
  : TechnicalSolution :=
  {| overview := overview ts;
     key_steps := key_steps ts;
     innovation_points := v;
     implementation_details := implementation_details ts |}.

(** The weight a failing check subtracts. *)
Definition penalty (c : bool) (w : Z) : Z := if c then w else 0%Z.

(** Lines 98-103 subtract 15 for an absent solution, 10 for an absent
    overview. *)
Definition solution_penalty (d : PatentDisclosure) : Z :=
  match technical_solution d with
  | None => 15
  | Some ts => if negb (truthy (overview ts)) then 10 else 0
  end.

(** The running score before the clamp of line 133: 100 minus the weight
    of every failing check. *)
Definition raw_score (d : PatentDisclosure) : Z :=
  100 - penalty (title_fails d) 15
      - penalty (inventors_fails d) 10
      - penalty (applicant_name_fails d) 10
      - penalty (technical_field_fails d) 10
      - penalty (background_fails d) 10
      - penalty (technical_problems_fails d) 15
      - solution_penalty d
      - penalty (beneficial_effects_fails d) 10
      - penalty (embodiments_fails d) 5
      - penalty (figures_fails d) 5
      - penalty (utility_model_figures_fails d) 10.

(** [satisfies_one_more d1 d2]: [d2] is [d1] with one field replaced, the
    check on that field failing in [d1] and passing in [d2].  The last four
    cases are the type-specific figure rule seen from the patent type, and
    the three checks that only produce suggestions. *)
Inductive satisfies_one_more : PatentDisclosure -> PatentDisclosure -> Prop :=
| more_title d v :
    title_fails d = true -> title_fails (with_title d v) = false ->
    satisfies_one_more d (with_title d v)
| more_inventors d v :
    inventors_fails d = true -> inventors_fails (with_inventors d v) = false ->
    satisfies_one_more d (with_inventors d v)
| more_applicant_name d v :
    applicant_name_fails d = true ->
    applicant_name_fails (with_applicant_name d v) = false ->
    satisfies_one_more d (with_applicant_name d v)
| more_technical_field d v :
    technical_field_fails d = true ->
    technical_field_fails (with_technical_field d v) = false ->
    satisfies_one_more d (with_technical_field d v)
| more_background d v :
    background_fails d = true ->
    background_fails (with_background_description d v) = false ->
    satisfies_one_more d (with_background_description d v)
| more_technical_problems d v :
    technical_problems_fails d = true ->
    technical_problems_fails (with_technical_problems d v) = false ->
    satisfies_one_more d (with_technical_problems d v)
| more_technical_solution d v :
    (0 < solution_penalty d)%Z ->
    solution_penalty (with_technical_solution d v) = 0%Z ->
    satisfies_one_more d (with_technical_solution d v)
| more_beneficial_effects d v :
    beneficial_effects_fails d = true ->
    beneficial_effects_fails (with_beneficial_effects d v) = false ->
    satisfies_one_more d (with_beneficial_effects d v)
| more_embodiments d v :
    embodiments_fails d = true ->
    embodiments_fails (with_embodiments d v) = false ->
    satisfies_one_more d (with_embodiments d v)
| more_figure_descriptions d v :
    figures_fails d = true ->
    figures_fails (with_figure_descriptions d v) = false ->
    satisfies_one_more d (with_figure_descriptions d v)
| more_patent_type d v :
    utility_model_figures_fails d = true ->
    utility_model_figures_fails (with_patent_type d v) = false ->
    satisfies_one_more d (with_patent_type d v)
| more_innovation_points d ts v :
    technical_solution d = Some ts ->
    (len (innovation_points ts) =? 0) = true -> (len v =? 0) = false ->
    satisfies_one_more d
      (with_technical_solution d (Some (with_innovation_points ts v)))
| more_prior_art_references d v :
    (len (prior_art_references d) =? 0) = true -> (len v =? 0) = false ->
    satisfies_one_more d (with_prior_art_references d v)
| more_contact_email d v :
    truthy_opt (contact_email d) = false -> truthy_opt v = true ->
    satisfies_one_more d (with_contact_email d v).

(** The number a claim text starts with: the digits before its first dot. *)
Fixpoint read_number (s : str) (acc : option nat) : option nat :=
  match s with
  | [] => None
  | c :: s' =>
      if ((48 <=? c) && (c <=? 57))%N then
        read_number s'
          (Some (10 * match acc with Some n => n | None => 0 end
                 + N.to_nat (c - 48)))
      else if (c =? 46)%N then acc
      else None
  end.

Definition claim_number (claim : str) : option nat := read_number claim None.

(** ** Sample disclosures *)

Definition sample_solution : TechnicalSolution :=
  {| overview := utf8 "采用卷积神经网络提取图像特征并完成分类识别";
     key_steps := [utf8 "采集图像"; utf8 "预处理图像"; utf8 "提取特征";
                   utf8 "分类识别"; utf8 "输出结果"];
     innovation_points := [];
     implementation_details := None |}.

(** Scenario A of the spec. *)
Definition scenario_A : PatentDisclosure :=
  {| title := utf8 "AI图像识别方法";
     patent_type := utf8 "invention";
     inventors := [utf8 "张三"];
     applicant_name := utf8 "某某科技有限公司";
     applicant_address := None;
     contact_phone := None;
     contact_email := None;
     technical_field := utf8 "人工智能与计算机视觉技术";
     background_description := times (utf8 "现有技术") 15;
     technical_problems :=
       [{| description := utf8 "识别准确率低";
           existing_solutions := None; limitations := None |}];
     technical_solution := Some sample_solution;
     beneficial_effects := [utf8 "提高识别准确率"];
     embodiments := [];
     figure_descriptions := [];
     prior_art_references := [] |}.

(** Scenario B: A as a utility model. *)
Definition scenario_B : PatentDisclosure :=
  with_patent_type scenario_A (utf8 "utility_model").

(** A with [n] innovation points. *)
Definition points_upto (n : nat) : list str :=
  map (fun i => utf8 "创新点" ++ str_of_nat i) (seq 1 n).

Definition with_points (d : PatentDisclosure) (points : list str)
  : PatentDisclosure :=
  with_technical_solution d
    (Some (with_innovation_points sample_solution points)).

Definition one_point : PatentDisclosure := with_points scenario_A (points_upto 1).
Definition four_points : PatentDisclosure := with_points scenario_A (points_upto 4).

(** Scenario D of the spec: six innovation points. *)
Definition six_points : PatentDisclosure := with_points scenario_A (points_upto 6).

(** Scenario C of the spec: A with an empty title. *)
Definition scenario_C : PatentDisclosure := with_title scenario_A [].

(** A with one embodiment. *)
Definition with_one_embodiment : PatentDisclosure :=
  with_embodiments scenario_A [utf8 "实施例一：在服务器上部署识别模型"].


(** A without its technical solution. *)
Definition no_solution : PatentDisclosure :=
  with_technical_solution scenario_A None.

(** Every required and recommended field empty, the solution present with
    an empty overview, as a utility model. *)
Definition maximally_deficient : PatentDisclosure :=
  {| title := [];
     patent_type := utf8 "utility_model";
     inventors := [];
     applicant_name := [];
     applicant_address := None;
     contact_phone := None;
     contact_email := None;
     technical_field := [];
     background_description := [];
     technical_problems := [];
     technical_solution :=
       Some {| overview := []; key_steps := []; innovation_points := [];
               implementation_details := None |};
     beneficial_effects := [];
     embodiments := [];
     figure_descriptions := [];
     prior_art_references := [] |}.

(** A writer that fills an application from what it is given. *)
Definition sample_writer (request : PatentDraftRequest)
  (applicant_info : ApplicantInfo) (inventor_info : list InventorInfo)
  : PatentApplication :=
  {| PatentSchemas.app_title := utf8 "一种技术方案";
     PatentSchemas.app_patent_type := PatentSchemas.patent_type request;
     PatentSchemas.applicant := applicant_info;
     PatentSchemas.app_inventors := inventor_info;
     PatentSchemas.app_technical_field := PatentSchemas.technical_field request;
     PatentSchemas.brief_description := utf8 "图1为本发明的流程示意图";
     PatentSchemas.invention_content := PatentSchemas.solution request |}.

(** The messages a check contributes. *)
Definition only_if (c : bool) (msg : str) : list str :=
  if c then [msg] else [].

Definition solution_errors (d : PatentDisclosure) : list str :=
  match technical_solution d with
  | None => [msg_solution_absent]
  | Some ts => only_if (negb (truthy (overview ts))) msg_overview_absent
  end.

(** The errors and the warnings of a disclosure, in the order the checks
    run. *)
Definition errors_of (d : PatentDisclosure) : list str :=
  ((((((((([] ++ only_if (title_fails d) msg_title)
    ++ only_if (inventors_fails d) msg_inventors)
    ++ only_if (applicant_name_fails d) msg_applicant_name)
    ++ only_if (technical_field_fails d) msg_technical_field)
    ++ only_if (background_fails d) msg_background)
    ++ only_if (technical_problems_fails d) msg_technical_problems)
    ++ solution_errors d)
    ++ only_if (beneficial_effects_fails d) msg_beneficial_effects)
    ++ only_if (utility_model_figures_fails d) msg_utility_model_figures).

Definition warnings_of (d : PatentDisclosure) : list str :=
  ([] ++ only_if (embodiments_fails d) msg_embodiments)
    ++ only_if (figures_fails d) msg_figures.

Definition clamp (score : Z) : Z := Z.max 0 (Z.min 100 score).

(** The dependent claims of lines 431-439. *)
Definition dependent_claims (d : PatentDisclosure) (ts : TechnicalSolution)
  : list str :=
  if truthy (innovation_points ts) then
    map (fun '(i, point) => dependent_claim d i point)
        (enumerate 2 (slice_to 4 (innovation_points ts)))
  else [default_claim_2 d; default_claim_3 d; default_claim_4 d].

(** C1 as the spec states it: a valid disclosure yields at least five
    claims, at least three of them dependent. *)
Definition claim_floor_as_stated : Prop :=
  forall d r, validate_disclosure d = Ok r -> is_valid r = true ->
  exists ts deps,
    technical_solution d = Some ts
    /\ _generate_claims_from_disclosure d
       = Ok (independent_claim d ts :: deps ++ [system_claim])
    /\ 3 <= len deps
    /\ 5 <= len (independent_claim d ts :: deps ++ [system_claim]).


(** C10 as stated: without validation, every disclosure is assembled. *)
Definition validation_bypass_as_stated : Prop :=
  forall writer d, exists application trace,
    run (process_disclosure writer d false)
    = (Ok (Some application, None), trace).

(* ================================================================== *)
(** * The agent tools ([disclosure_agent.py], lines 71-237) *)
(* ================================================================== *)

Module PyStr.

(** [s.split(sep)] for a separator of one character. *)
Fixpoint split (sep : char) (s : str) : list str :=
  match s with
  | [] => [[]]
  | c :: s' =>
      if (c =? sep)%N then [] :: split sep s'
      else match split sep s' with
           | piece :: pieces => (c :: piece) :: pieces
           | [] => [[c]]
           end
  end.

(** [f"{x:.1f}"] for a float whose value is a non-negative integer. *)
Definition fmt_1f (x : Z) : str := str_of_nat (Z.to_nat x) ++ utf8 ".0".

(** The separators the tools split on. *)
Definition comma : char := 44%N.
Definition semicolon : char := 59%N.

End PyStr.

Module DisclosureAgent.

(** [[x.strip() for x in s.split(sep)]] *)
Definition stripped_pieces (sep : char) (s : str) : list str :=
  map strip (PyStr.split sep s).

(** [[x.strip() for x in s.split(sep) if x.strip()]] *)
Definition nonblank_pieces (sep : char) (s : str) : list str :=
  map strip (filter (fun x => truthy (strip x)) (PyStr.split sep s)).

(** [[x.strip() for x in o.split(sep)] if o else []] *)
Definition optional_pieces (sep : char) (o : option str) : list str :=
  match o with
  | Some (c :: s) => stripped_pieces sep (c :: s)
  | _ => []
  end.

(** Lines 103-116: the disclosure the validation tool builds.  The optional
    fields take the defaults of the schema. *)
Definition validation_disclosure
  (title inventors applicant_name technical_field background_description
   technical_problems technical_solution beneficial_effects patent_type : str)
  : PatentDisclosure :=
  {| title := title;
     patent_type := patent_type;
     inventors := stripped_pieces PyStr.comma inventors;
     applicant_name := applicant_name;
     applicant_address := None;
     contact_phone := None;
     contact_email := None;
     technical_field := technical_field;
     background_description := background_description;
     technical_problems :=
       [{| description := technical_problems;
           existing_solutions := None; limitations := None |}];
     technical_solution :=
       Some {| overview := technical_solution; key_steps := [];
               innovation_points := []; implementation_details := None |};
     beneficial_effects := stripped_pieces PyStr.semicolon beneficial_effects;
     embodiments := [];
     figure_descriptions := [];
     prior_art_references := [] |}.

(** Lines 121-150: the report of the validation tool. *)
Definition validation_report (result : DisclosureValidationResult) : str :=
  let report := times (utf8 "=") 50 ++ nl in
  let report := report ++ utf8 "       专利交底书验证报告" ++ nl in
  let report := report ++ times (utf8 "=") 50 ++ nl ++ nl in
  let report :=
    if is_valid result
    then report ++ utf8 "✅ 验证通过！交底书内容完整" ++ nl ++ nl
    else report ++ utf8 "❌ 验证未通过，请修正以下问题：" ++ nl ++ nl in
  let report := report ++ utf8 "📊 完整性评分："
    ++ PyStr.fmt_1f (completeness_score result) ++ utf8 "/100" ++ nl ++ nl in
  let report :=
    if truthy (errors result) then
      let report := report ++ utf8 "❌ 错误（必须修正）：" ++ nl in
      let report :=
        for_ (errors result) (fun error report =>
          report ++ utf8 "   • " ++ error ++ nl) report in
      report ++ nl
    else report in
  let report :=
    if truthy (warnings result) then
      let report := report ++ utf8 "⚠️ 警告（建议修正）：" ++ nl in
      let report :=
        for_ (warnings result) (fun warning report =>
          report ++ utf8 "   • " ++ warning ++ nl) report in
      report ++ nl
    else report in
  let report :=
    if truthy (suggestions result) then
      let report := report ++ utf8 "💡 建议：" ++ nl in
      let report :=
        for_ (suggestions result) (fun suggestion report =>
          report ++ utf8 "   • " ++ suggestion ++ nl) report in
      report ++ nl
    else report in
  report.

(** Lines 200-230: the disclosure the generation tool builds. *)
Definition generation_disclosure
  (title inventors applicant_name technical_field background_description
   technical_problems technical_solution : str)
  (key_steps innovation_points : option str) (beneficial_effects : str)
  (embodiments figure_descriptions : option str) (patent_type : str)
  (applicant_address contact_email : option str)
  : PatentDisclosure :=
  let inventors_list := nonblank_pieces PyStr.comma inventors in
  let effects_list := nonblank_pieces PyStr.semicolon beneficial_effects in
  let steps_list := optional_pieces PyStr.semicolon key_steps in
  let points_list := optional_pieces PyStr.semicolon innovation_points in
  let embodiments_list := optional_pieces PyStr.semicolon embodiments in
  let figures_list := optional_pieces PyStr.semicolon figure_descriptions in
  {| title := title;
     patent_type := patent_type;
     inventors := inventors_list;
     applicant_name := applicant_name;
     applicant_address := applicant_address;
     contact_phone := None;
     contact_email := contact_email;
     technical_field := technical_field;
     background_description := background_description;
     technical_problems :=
       [{| description := technical_problems;
           existing_solutions := None; limitations := None |}];
     technical_solution :=
       Some {| overview := technical_solution; key_steps := steps_list;
               innovation_points := points_list;
               implementation_details := None |};
     beneficial_effects := effects_list;
     embodiments := embodiments_list;
     figure_descriptions := figures_list;
     prior_art_references := [] |}.

Section Tools.

(** [str(e)] in the handlers: the message of the exception, which the
    model of exceptions does not carry. *)
Variable str_of_exn : exn -> str.

Variable generate_patent_application :
  PatentDraftRequest -> ApplicantInfo -> list InventorInfo -> PatentApplication.

(** The tool [validate_disclosure], lines 71-155: [try] the report,
    [except Exception] the error text. *)
Definition validate_disclosure
  (title inventors applicant_name technical_field background_description
   technical_problems technical_solution beneficial_effects patent_type : str)
  : str :=
  let attempt :=
    let disclosure :=
      validation_disclosure title inventors applicant_name technical_field
        background_description technical_problems technical_solution
        beneficial_effects patent_type in
    result <- validate_disclosure disclosure ;;
    Ok (validation_report result) in
  match attempt with
  | Ok report => report
  | Raise e => utf8 "验证交底书时发生错误：" ++ str_of_exn e
  end.

(** The tool [process_disclosure_to_patent], lines 158-237. *)
Definition process_disclosure_to_patent
  (title inventors applicant_name technical_field background_description
   technical_problems technical_solution : str)
  (key_steps innovation_points : option str) (beneficial_effects : str)
  (embodiments figure_descriptions : option str) (patent_type : str)
  (applicant_address contact_email : option str)
  : proc str :=
  fun t =>
    let disclosure :=
      generation_disclosure title inventors applicant_name technical_field
        background_description technical_problems technical_solution
        key_steps innovation_points beneficial_effects embodiments
        figure_descriptions patent_type applicant_address contact_email in
    match generate_enhanced_patent generate_patent_application disclosure t with
    | (Ok patent_text, t') => (Ok patent_text, t')
    | (Raise e, t') =>
        (Ok (utf8 "处理交底书时发生错误：" ++ str_of_exn e), t')
    end.

End Tools.

End DisclosureAgent.

(** ** Further notions used to state the properties *)

(** Every character of [s] is whitespace. *)
Definition blank (s : str) : bool := forallb isspace s.

(** Lines 156-161 for one problem: its numbered block. *)
Definition problem_block (i : nat) (problem : TechnicalProblem) : str :=
  (((str_of_nat i ++ utf8 ". " ++ description problem)
    ++ (if truthy_opt (existing_solutions problem)
        then nl ++ utf8 "   现有方案：" ++ fmt_opt (existing_solutions problem)
        else []))
    ++ (if truthy_opt (limitations problem)
        then nl ++ utf8 "   局限性：" ++ fmt_opt (limitations problem)
        else []))
    ++ nl ++ nl.

(** Line 425 for one key step: its sub-clause of claim 1. *)
Definition step_clause (i : nat) (step : str) : str :=
  utf8 "    （" ++ str_of_nat (i + 1) ++ utf8 "）" ++ step ++ utf8 "；" ++ nl.

(** The suggestions of lines 123-130, in the order the checks run. *)
Definition suggestions_of (d : PatentDisclosure) (ts : TechnicalSolution)
  : list str :=
  (([] ++ only_if (len (innovation_points ts) =? 0) msg_innovation_points)
    ++ only_if (len (prior_art_references d) =? 0) msg_prior_art)
    ++ only_if (negb (truthy_opt (contact_email d))) msg_contact_email.

(** The error checks as a table: condition and message, in source order. *)
Definition error_table (d : PatentDisclosure) : list (bool * str) :=
  [ (title_fails d, msg_title);
    (inventors_fails d, msg_inventors);
    (applicant_name_fails d, msg_applicant_name);
    (technical_field_fails d, msg_technical_field);
    (background_fails d, msg_background);
    (technical_problems_fails d, msg_technical_problems);
    (match technical_solution d with None => true | Some _ => false end,
     msg_solution_absent);
    (match technical_solution d with
     | None => false
     | Some ts => negb (truthy (overview ts))
     end, msg_overview_absent);
    (beneficial_effects_fails d, msg_beneficial_effects);
    (utility_model_figures_fails d, msg_utility_model_figures) ].

(** No string occurs twice in [l]. *)
Fixpoint nodupb (l : list str) : bool :=
  match l with
  | [] => true
  | x :: l' => negb (existsb (str_eqb x) l') && nodupb l'
  end.

(** The text [s] begins with the character [c]. *)
Definition begins_with (c : char) (s : str) : Prop :=
  exists rest, s = c :: rest.

(** [s in t], as a proposition. *)
Definition has (s t : str) : Prop := contains s t = true.

(** A with a title of eight spaces and an applicant name of one space. *)
Definition blank_title_sample : PatentDisclosure :=
  with_applicant_name (with_title scenario_A (times (utf8 " ") 8)) (utf8 " ").

(** An application as a writer could return it for Scenario A. *)
Definition sample_application : PatentApplication :=
  {| PatentSchemas.app_title := utf8 "AI图像识别方法";
     PatentSchemas.app_patent_type := INVENTION;
     PatentSchemas.applicant := applicant_info_of scenario_A;
     PatentSchemas.app_inventors := inventor_info_of scenario_A;
     PatentSchemas.app_technical_field := technical_field scenario_A;
     PatentSchemas.brief_description := utf8 "图1为本发明的流程示意图";
     PatentSchemas.invention_content := overview sample_solution |}.

(* ================================================================== *)
(** * Properties of the validator *)
(* ================================================================== *)

Section ValidatorFacts.

Local Open Scope Z_scope.

Lemma str_eqb_refl (a : str) : str_eqb a a = true.
Proof.
  induction a as [|c a IH]; simpl; [reflexivity|].
  now rewrite N.eqb_refl, IH.
Qed.

Lemma str_eqb_eq (a b : str) : str_eqb a b = true <-> a = b.
Proof.
  split; [|intros ->; apply str_eqb_refl].
  revert b; induction a as [|x a IH]; intros [|y b]; simpl;
    try discriminate; [reflexivity|].
  intros H; apply andb_true_iff in H as [Hx Hab].
  apply N.eqb_eq in Hx; subst y. f_equal. now apply IH.
Qed.

Lemma penalty_nonneg (c : bool) (w : Z) : 0 <= w -> 0 <= penalty c w.
Proof. destruct c; simpl; lia. Qed.

(** What one guarded statement does to each local variable. *)

Lemma score_when_error c m w st :
  st_score (when c (report_error m w) st) = st_score st - penalty c w.
Proof. destruct c; simpl; lia. Qed.

Lemma score_when_warning c m w st :
  st_score (when c (report_warning m w) st) = st_score st - penalty c w.
Proof. destruct c; simpl; lia. Qed.

Lemma score_check_solution d st :
  st_score (check_solution d st) = st_score st - solution_penalty d.
Proof.
  unfold check_solution, solution_penalty.
  destruct (technical_solution d) as [ts|]; simpl; [|lia].
  destruct (truthy (overview ts)); simpl; lia.
Qed.

Lemma errors_when_error c m w st :
  st_errors (when c (report_error m w) st) = st_errors st ++ only_if c m.
Proof. destruct c; simpl; [reflexivity|now rewrite app_nil_r]. Qed.

Lemma errors_when_warning c m w st :
  st_errors (when c (report_warning m w) st) = st_errors st.
Proof. now destruct c. Qed.

Lemma errors_check_solution d st :
  st_errors (check_solution d st) = st_errors st ++ solution_errors d.
Proof.
  unfold check_solution, solution_errors.
  destruct (technical_solution d) as [ts|]; simpl; [|reflexivity].
  destruct (truthy (overview ts)); simpl; [now rewrite app_nil_r|reflexivity].
Qed.

Lemma warnings_when_error c m w st :
  st_warnings (when c (report_error m w) st) = st_warnings st.
Proof. now destruct c. Qed.

Lemma warnings_when_warning c m w st :
  st_warnings (when c (report_warning m w) st) = st_warnings st ++ only_if c m.
Proof. destruct c; simpl; [reflexivity|now rewrite app_nil_r]. Qed.

Lemma warnings_check_solution d st :
  st_warnings (check_solution d st) = st_warnings st.
Proof.
  unfold check_solution.
  destruct (technical_solution d) as [ts|]; simpl; [|reflexivity].
  now destruct (truthy (overview ts)).
Qed.

Lemma when_suggest c m st :
  st_errors (when c (suggest m) st) = st_errors st
  /\ st_warnings (when c (suggest m) st) = st_warnings st
  /\ st_score (when c (suggest m) st) = st_score st.
Proof. now destruct c. Qed.

(** The state at line 120, in closed form. *)

Lemma penalty_checks_score d : st_score (penalty_checks d) = raw_score d.
Proof.
  unfold penalty_checks, raw_score; cbv zeta.
  repeat first [ rewrite score_when_error | rewrite score_when_warning
               | rewrite score_check_solution ].
  reflexivity.
Qed.

Lemma penalty_checks_errors d : st_errors (penalty_checks d) = errors_of d.
Proof.
  unfold penalty_checks, errors_of; cbv zeta.
  repeat first [ rewrite errors_when_error | rewrite errors_when_warning
               | rewrite errors_check_solution ].
  reflexivity.
Qed.

Lemma penalty_checks_warnings d :
  st_warnings (penalty_checks d) = warnings_of d.
Proof.
  unfold penalty_checks, warnings_of; cbv zeta.
  repeat first [ rewrite warnings_when_error | rewrite warnings_when_warning
               | rewrite warnings_check_solution ].
  reflexivity.
Qed.

(** [validate_disclosure] returns exactly when the solution is present, and
    then its result is the closed form. *)
Lemma validate_disclosure_present d ts :
  technical_solution d = Some ts ->
  exists r, validate_disclosure d = Ok r
    /\ is_valid r = (len (errors_of d) =? 0)%nat
    /\ errors r = errors_of d
    /\ warnings r = warnings_of d
    /\ completeness_score r = clamp (raw_score d).
Proof.
  intros Hts. unfold validate_disclosure. rewrite Hts. cbn [deref bind].
  eexists; split; [reflexivity|]. cbn [is_valid errors warnings completeness_score].
  repeat match goal with
  | |- context [st_errors (when ?c (suggest ?m) ?st)] =>
      rewrite (proj1 (when_suggest c m st))
  | |- context [st_warnings (when ?c (suggest ?m) ?st)] =>
      rewrite (proj1 (proj2 (when_suggest c m st)))
  | |- context [st_score (when ?c (suggest ?m) ?st)] =>
      rewrite (proj2 (proj2 (when_suggest c m st)))
  end.
  now rewrite penalty_checks_errors, penalty_checks_warnings,
    penalty_checks_score.
Qed.

Lemma validate_disclosure_absent d :
  technical_solution d = None -> validate_disclosure d = Raise AttributeError.
Proof. intros H. unfold validate_disclosure. now rewrite H. Qed.

Lemma validate_disclosure_ok_inv d r :
  validate_disclosure d = Ok r -> exists ts, technical_solution d = Some ts.
Proof.
  destruct (technical_solution d) as [ts|] eqn:E; [now exists ts|].
  rewrite (validate_disclosure_absent d E). discriminate.
Qed.

Lemma validate_disclosure_ok d r :
  validate_disclosure d = Ok r ->
  is_valid r = (len (errors_of d) =? 0)%nat
  /\ errors r = errors_of d
  /\ warnings r = warnings_of d
  /\ completeness_score r = clamp (raw_score d).
Proof.
  intros H. destruct (validate_disclosure_ok_inv d r H) as [ts Hts].
  destruct (validate_disclosure_present d ts Hts) as (r' & Hr' & P).
  rewrite H in Hr'. injection Hr' as ->. exact P.
Qed.

Lemma clamp_range s : 0 <= clamp s <= 100.
Proof. unfold clamp; lia. Qed.

Lemma clamp_mono a b : a <= b -> clamp a <= clamp b.
Proof. unfold clamp; lia. Qed.

End ValidatorFacts.

Section ValidatorTheorems.

Local Open Scope Z_scope.

(** C3.  A disclosure without a technical solution: lines 98-100 record the
    blocking error "技术方案不能为空", and line 123 then reads
    [technical_solution.innovation_points] on [None], so the call raises
    [AttributeError] and no [ValidationResult] is returned. *)
Theorem validate_disclosure_raises_without_solution :
  technical_solution no_solution = None
  /\ In msg_solution_absent (st_errors (penalty_checks no_solution))
  /\ validate_disclosure no_solution = Raise AttributeError.
Proof.
  split; [reflexivity|]. split; [|reflexivity].
  rewrite penalty_checks_errors. vm_compute. left; reflexivity.
Qed.

(** C5.  Whenever [validate_disclosure] returns (that is, whenever the
    solution is present), [is_valid] is true if and only if [errors] is
    empty; and any other result with the same errors has the same
    [is_valid], whatever its warnings and suggestions are. *)
Theorem is_valid_iff_no_errors d ts :
  technical_solution d = Some ts ->
  exists r, validate_disclosure d = Ok r
    /\ (is_valid r = true <-> errors r = [])
    /\ (forall d' r', validate_disclosure d' = Ok r' ->
          errors r' = errors r -> is_valid r' = is_valid r).
Proof.
  intros Hts.
  destruct (validate_disclosure_present d ts Hts) as (r & Hr & Hv & He & _).
  exists r. split; [exact Hr|]. split.
  - rewrite Hv, He. destruct (errors_of d); simpl; split; congruence.
  - intros d' r' Hr' Hsame.
    destruct (validate_disclosure_ok d' r' Hr') as (Hv' & He' & _).
    rewrite Hv, Hv', <- He, <- He', Hsame. reflexivity.
Qed.

(** C6.  Whenever [validate_disclosure] returns, the completeness score is
    the running score clamped to [0, 100]; in particular it is 0 when the
    weighted subtraction from 100 is negative. *)
Theorem completeness_score_in_range d ts :
  technical_solution d = Some ts ->
  exists r, validate_disclosure d = Ok r
    /\ 0 <= completeness_score r <= 100
    /\ completeness_score r = Z.max 0 (Z.min 100 (raw_score d))
    /\ (raw_score d < 0 -> completeness_score r = 0).
Proof.
  intros Hts.
  destruct (validate_disclosure_present d ts Hts) as (r & Hr & _ & _ & _ & Hs).
  exists r. split; [exact Hr|]. rewrite Hs. unfold clamp.
  repeat split; lia.
Qed.

Lemma utility_model_figures_fails_true d :
  patent_type d = utf8 "utility_model" -> figure_descriptions d = [] ->
  utility_model_figures_fails d = true /\ figures_fails d = true.
Proof.
  intros Hty Hfig. unfold utility_model_figures_fails, figures_fails.
  rewrite Hty, Hfig, str_eqb_refl. split; reflexivity.
Qed.

Lemma figures_fails_false d :
  figure_descriptions d <> [] ->
  utility_model_figures_fails d = false /\ figures_fails d = false.
Proof.
  intros Hfig. unfold utility_model_figures_fails, figures_fails.
  destruct (figure_descriptions d); [congruence|]. simpl.
  now rewrite andb_false_r.
Qed.

(** C7.  A utility model with no figure descriptions: the generic warning
    and the utility-model error are both reported, the result is invalid,
    the running score is 5 + 10 below that of the same disclosure with
    figures and 10 below that of the same disclosure under another patent
    type; so a disclosure scoring 90 otherwise scores 80. *)
Theorem utility_model_without_figures d ts :
  patent_type d = utf8 "utility_model" ->
  figure_descriptions d = [] ->
  technical_solution d = Some ts ->
  exists r, validate_disclosure d = Ok r
    /\ In msg_figures (warnings r)
    /\ In msg_utility_model_figures (errors r)
    /\ is_valid r = false
    /\ completeness_score r = Z.max 0 (Z.min 100 (raw_score d))
    /\ (forall figs, figs <> [] ->
          raw_score d = raw_score (with_figure_descriptions d figs) - 5 - 10)
    /\ (forall ty, ty <> utf8 "utility_model" ->
          raw_score d = raw_score (with_patent_type d ty) - 10)
    /\ (forall ty r', ty <> utf8 "utility_model" ->
          validate_disclosure (with_patent_type d ty) = Ok r' ->
          completeness_score r' = 90 -> completeness_score r = 80).
Proof.
  intros Hty Hfig Hts.
  destruct (validate_disclosure_present d ts Hts) as (r & Hr & Hv & He & Hw & Hs).
  destruct (utility_model_figures_fails_true d Hty Hfig) as [Hum Hgen].
  assert (Hother : forall ty, ty <> utf8 "utility_model" ->
            raw_score d = raw_score (with_patent_type d ty) - 10).
  { intros ty Hne.
    assert (Hum' : utility_model_figures_fails (with_patent_type d ty) = false).
    { unfold utility_model_figures_fails; simpl.
      destruct (str_eqb ty (utf8 "utility_model")) eqn:E; [|reflexivity].
      apply str_eqb_eq in E. contradiction. }
    unfold raw_score. rewrite Hum, Hum'. cbn [penalty].
    change (title_fails (with_patent_type d ty)) with (title_fails d).
    change (figures_fails (with_patent_type d ty)) with (figures_fails d).
    change (solution_penalty (with_patent_type d ty)) with (solution_penalty d).
    unfold inventors_fails, applicant_name_fails, technical_field_fails,
      background_fails, technical_problems_fails, beneficial_effects_fails,
      embodiments_fails; cbn [with_patent_type inventors applicant_name
      technical_field background_description technical_problems
      beneficial_effects embodiments]. lia. }
  exists r. split; [exact Hr|]. rewrite Hw, He, Hv, Hs.
  split; [|split; [|split; [|split; [|split; [|split]]]]].
  - unfold warnings_of. rewrite Hgen. apply in_or_app. right. left; reflexivity.
  - unfold errors_of. rewrite Hum. apply in_or_app. right. left; reflexivity.
  - unfold errors_of. rewrite Hum. unfold len. rewrite length_app. simpl.
    apply Nat.eqb_neq. lia.
  - reflexivity.
  - intros figs Hne.
    assert (Hne' : figure_descriptions (with_figure_descriptions d figs) <> [])
      by exact Hne.
    destruct (figures_fails_false _ Hne') as [Hum' Hgen'].
    unfold raw_score. rewrite Hum, Hgen, Hum', Hgen'. cbn [penalty].
    change (title_fails (with_figure_descriptions d figs)) with (title_fails d).
    change (solution_penalty (with_figure_descriptions d figs))
      with (solution_penalty d).
    unfold inventors_fails, applicant_name_fails, technical_field_fails,
      background_fails, technical_problems_fails, beneficial_effects_fails,
      embodiments_fails; cbn [with_figure_descriptions inventors applicant_name
      technical_field background_description technical_problems
      beneficial_effects embodiments]. lia.
  - exact Hother.
  - intros ty r' Hne Hr' H90.
    destruct (validate_disclosure_ok _ r' Hr') as (_ & _ & _ & Hs').
    rewrite Hs' in H90. rewrite (Hother ty Hne). unfold clamp in *. lia.
Qed.

End ValidatorTheorems.

Section Monotonicity.

Local Open Scope Z_scope.

Ltac unfold_checks :=
  unfold raw_score, title_fails, inventors_fails, applicant_name_fails,
    technical_field_fails, background_fails, technical_problems_fails,
    beneficial_effects_fails, embodiments_fails, figures_fails,
    utility_model_figures_fails, solution_penalty in *;
  cbn [with_title with_inventors with_applicant_name with_technical_field
       with_background_description with_technical_problems
       with_technical_solution with_beneficial_effects with_embodiments
       with_figure_descriptions with_patent_type with_prior_art_references
       with_contact_email with_innovation_points overview
       title patent_type inventors applicant_name technical_field
       background_description technical_problems technical_solution
       beneficial_effects embodiments figure_descriptions] in *.

(** Replacing a failing field by a passing one never lowers the running
    score. *)
Lemma satisfies_one_more_raw_score d1 d2 :
  satisfies_one_more d1 d2 -> raw_score d1 <= raw_score d2.
Proof.
  intros H; destruct H as [d v H1 H2|d v H1 H2|d v H1 H2|d v H1 H2|d v H1 H2
    |d v H1 H2|d v H1 H2|d v H1 H2|d v H1 H2|d v H1 H2|d v H1 H2
    |d ts v Hts H1 H2|d v H1 H2|d v H1 H2];
    unfold_checks; try lia; try (rewrite H1, H2; cbn [penalty]; lia);
    try (rewrite Hts; lia).
  - (* figure_descriptions *)
    rewrite H1, H2. apply orb_false_iff in H2 as [_ H2]. rewrite H2.
    rewrite andb_false_r. cbn [penalty].
    pose proof (penalty_nonneg
      (str_eqb (patent_type d) (utf8 "utility_model")
       && (len (figure_descriptions d) =? 0)%nat) 10).
    lia.
Qed.

Lemma satisfies_one_more_solution d1 d2 ts :
  satisfies_one_more d1 d2 -> technical_solution d1 = Some ts ->
  exists ts', technical_solution d2 = Some ts'.
Proof.
  intros H Hts; destruct H; try (exists ts; exact Hts);
    try (eexists; reflexivity).
  destruct v as [ts'|]; [now exists ts'|].
  unfold solution_penalty in *; simpl in *. discriminate.
Qed.

(** C9.  If [d2] is [d1] with one failing checked field replaced by a
    passing one, all else fixed, and [validate_disclosure] returns on [d1],
    then it returns on [d2] with a completeness score at least as high. *)
Theorem completeness_score_monotone d1 d2 r1 :
  satisfies_one_more d1 d2 ->
  validate_disclosure d1 = Ok r1 ->
  exists r2, validate_disclosure d2 = Ok r2
    /\ completeness_score r1 <= completeness_score r2.
Proof.
  intros Hmore Hr1.
  destruct (validate_disclosure_ok d1 r1 Hr1) as (_ & _ & _ & Hs1).
  destruct (validate_disclosure_ok_inv d1 r1 Hr1) as [ts Hts].
  destruct (satisfies_one_more_solution d1 d2 ts Hmore Hts) as [ts' Hts'].
  destruct (validate_disclosure_present d2 ts' Hts') as (r2 & Hr2 & _ & _ & _ & Hs2).
  exists r2. split; [exact Hr2|].
  rewrite Hs1, Hs2. apply clamp_mono.
  now apply satisfies_one_more_raw_score.
Qed.

End Monotonicity.

(* ================================================================== *)
(** * Properties of the claim synthesizer *)
(* ================================================================== *)

Section ClaimFacts.

Lemma enumerate_length {A} (xs : list A) (i : nat) :
  len (enumerate i xs) = len xs.
Proof.
  revert i; induction xs as [|x xs IH]; intros i; simpl; [reflexivity|].
  unfold len in *. now rewrite IH.
Qed.

(** The loop of lines 432-434 appends one claim per enumerated point. *)
Lemma dependent_loop (d : PatentDisclosure) (ps : list (nat * str))
  (acc : list str) :
  for_ ps (fun '(i, point) claims => claims ++ [dependent_claim d i point]) acc
  = acc ++ map (fun '(i, point) => dependent_claim d i point) ps.
Proof.
  unfold for_. revert acc; induction ps as [|[i point] ps IH]; intros acc; simpl.
  - now rewrite app_nil_r.
  - now rewrite IH, <- app_assoc.
Qed.

(** The claim set in closed form: claim 1, the dependent claims, the system
    claim. *)
Lemma generate_claims_present d ts :
  technical_solution d = Some ts ->
  _generate_claims_from_disclosure d
  = Ok (independent_claim d ts :: dependent_claims d ts ++ [system_claim]).
Proof.
  intros Hts. unfold _generate_claims_from_disclosure, dependent_claims.
  rewrite Hts. cbn [deref bind]. f_equal.
  destruct (truthy (innovation_points ts)).
  - now rewrite dependent_loop.
  - reflexivity.
Qed.

Lemma generate_claims_absent d :
  technical_solution d = None ->
  _generate_claims_from_disclosure d = Raise AttributeError.
Proof.
  intros H. unfold _generate_claims_from_disclosure. now rewrite H.
Qed.

Lemma dependent_claims_length d ts :
  len (dependent_claims d ts)
  = if truthy (innovation_points ts)
    then Nat.min 4 (len (innovation_points ts)) else 3.
Proof.
  unfold dependent_claims. destruct (truthy (innovation_points ts)).
  - unfold len at 1. rewrite length_map. fold (len (enumerate 2
      (slice_to 4 (innovation_points ts)))). rewrite enumerate_length.
    unfold len, slice_to. apply length_firstn.
  - reflexivity.
Qed.

(** The last claim is always the literal of line 442, numbered 5. *)
Lemma system_claim_is_last d ts :
  technical_solution d = Some ts ->
  exists claims, _generate_claims_from_disclosure d = Ok claims
    /\ last claims [] = system_claim
    /\ claim_number system_claim = Some 5.
Proof.
  intros Hts. eexists. split; [apply (generate_claims_present d ts Hts)|].
  split; [|reflexivity].
  change (independent_claim d ts :: dependent_claims d ts ++ [system_claim])
    with ((independent_claim d ts :: dependent_claims d ts) ++ [system_claim]).
  apply last_last.
Qed.

End ClaimFacts.

Section ClaimTheorems.

Lemma truthy_length {A} (l : list A) :
  truthy l = true <-> 1 <= len l.
Proof. destruct l; simpl; split; intros; try discriminate; lia. Qed.

(** C1 (amended).  For a disclosure with no blocking error the synthesizer
    returns claim 1, then the dependent claims, then the system claim.  The
    dependent claims are the claims of line 433 for the first four
    innovation points, numbered from 2, or the three default claims of
    lines 437-439 when there is no innovation point; so there are between
    3 and 6 claims.  There are at least 5 claims, 3 of them dependent,
    exactly when the disclosure has no innovation point or at least
    three. *)
Theorem claim_count d r :
  validate_disclosure d = Ok r -> is_valid r = true ->
  exists ts deps,
    technical_solution d = Some ts
    /\ _generate_claims_from_disclosure d
       = Ok (independent_claim d ts :: deps ++ [system_claim])
    /\ deps = (if truthy (innovation_points ts)
               then map (fun '(i, point) => dependent_claim d i point)
                      (enumerate 2 (slice_to 4 (innovation_points ts)))
               else [default_claim_2 d; default_claim_3 d; default_claim_4 d])
    /\ len deps = (if truthy (innovation_points ts)
                   then Nat.min 4 (len (innovation_points ts)) else 3)
    /\ 3 <= len (independent_claim d ts :: deps ++ [system_claim]) <= 6
    /\ (3 <= len deps <->
        len (innovation_points ts) = 0 \/ 3 <= len (innovation_points ts))
    /\ (5 <= len (independent_claim d ts :: deps ++ [system_claim]) <->
        len (innovation_points ts) = 0 \/ 3 <= len (innovation_points ts)).
Proof.
  intros Hr _.
  destruct (validate_disclosure_ok_inv d r Hr) as [ts Hts].
  exists ts, (dependent_claims d ts).
  split; [exact Hts|]. split; [exact (generate_claims_present d ts Hts)|].
  split; [reflexivity|].
  pose proof (dependent_claims_length d ts) as Hlen.
  split; [exact Hlen|].
  assert (Htot : len (independent_claim d ts :: dependent_claims d ts
                        ++ [system_claim]) = 2 + len (dependent_claims d ts)).
  { unfold len. simpl. rewrite length_app. simpl. lia. }
  rewrite Htot, Hlen.
  destruct (truthy (innovation_points ts)) eqn:E.
  - apply truthy_length in E. repeat split; lia.
  - assert (len (innovation_points ts) = 0)
      by (destruct (innovation_points ts); [reflexivity|discriminate]).
    repeat split; lia.
Qed.

(** The claim set of [one_point]: a valid disclosure, three claims. *)
Lemma one_point_claims :
  (exists r, validate_disclosure one_point = Ok r
     /\ is_valid r = true /\ errors r = [])
  /\ exists claims, _generate_claims_from_disclosure one_point = Ok claims
     /\ len claims = 3 /\ map claim_number claims = [Some 1; Some 2; Some 5].
Proof.
  split; eexists; (split; [vm_compute; reflexivity|]);
    split; vm_compute; reflexivity.
Qed.

(** C1 as stated fails: [one_point] is valid and has one innovation point;
    its claim set has three claims, one of them dependent. *)
Lemma claim_floor_counterexample :
  (exists r, validate_disclosure one_point = Ok r /\ is_valid r = true)
  /\ (exists claims, _generate_claims_from_disclosure one_point = Ok claims
        /\ len claims = 3)
  /\ ~ claim_floor_as_stated.
Proof.
  destruct one_point_claims as [(r & Hr & Hv & _) (claims & Hc & Hlen & _)].
  split; [now exists r|]. split; [now exists claims|].
  intros H. destruct (H one_point r Hr Hv) as (ts & deps & _ & Hc' & _ & H5).
  rewrite Hc in Hc'. injection Hc' as Hc'. rewrite <- Hc', Hlen in H5. lia.
Qed.

(** C2.  The number and the back-reference of the system claim are fixed
    text.  With one innovation point the claims are numbered 1, 2, 5; with
    four they are numbered 1, 2, 3, 4, 5, 5; in both the last claim refers
    to claims 1-4. *)
Theorem system_claim_number_is_fixed :
  (exists claims, _generate_claims_from_disclosure one_point = Ok claims
     /\ map claim_number claims = [Some 1; Some 2; Some 5]
     /\ last claims [] = system_claim)
  /\ (exists claims, _generate_claims_from_disclosure four_points = Ok claims
        /\ map claim_number claims
           = [Some 1; Some 2; Some 3; Some 4; Some 5; Some 5]
        /\ last claims [] = system_claim)
  /\ startswith (utf8 "5. ") system_claim = true
  /\ contains (utf8 "权利要求1-4") system_claim = true.
Proof.
  split; [|split; [|split]]; try (vm_compute; reflexivity);
    eexists; (split; [vm_compute; reflexivity|]);
    split; vm_compute; reflexivity.
Qed.



End ClaimTheorems.

(* ================================================================== *)
(** * Properties of the pipeline *)
(* ================================================================== *)

Section PipelineTheorems.

Variable writer :
  PatentDraftRequest -> ApplicantInfo -> list InventorInfo -> PatentApplication.

Lemma disclosure_to_patent_request_present d ts :
  technical_solution d = Some ts ->
  exists request, disclosure_to_patent_request d = Ok request.
Proof.
  intros Hts. unfold disclosure_to_patent_request. rewrite Hts.
  cbn [deref bind]. eexists; reflexivity.
Qed.

Lemma disclosure_to_patent_request_absent d :
  technical_solution d = None ->
  disclosure_to_patent_request d = Raise AttributeError.
Proof.
  intros H. unfold disclosure_to_patent_request. now rewrite H.
Qed.

(** The assembly stage on a normalizable disclosure: one call of the
    writer, whose application is returned under the disclosure's title. *)
Lemma assemble_application_ok d request validation_result t :
  disclosure_to_patent_request d = Ok request ->
  assemble_application writer d validation_result t
  = (Ok (Some (PatentSchemas.set_title
                 (writer request (applicant_info_of d) (inventor_info_of d))
                 (title d)),
         validation_result),
     t ++ [GeneratePatentApplication request (applicant_info_of d)
             (inventor_info_of d)]).
Proof.
  intros Hreq. unfold assemble_application, pbind, lift. rewrite Hreq.
  reflexivity.
Qed.

(** The message for a failed validation lists every error, then every
    warning, one per line. *)
Lemma validation_failure_message_lists v :
  validation_failure_message (Some v)
  = (utf8 "交底书验证失败：" ++ nl)
    ++ List.concat (map (fun error => utf8 "❌ " ++ error ++ nl) (errors v))
    ++ List.concat (map (fun warning => utf8 "⚠️ " ++ warning ++ nl) (warnings v)).
Proof.
  unfold validation_failure_message, for_.
  assert (Hloop : forall (pre : str) (xs : list str) (acc : str),
    fold_left (fun s x => s ++ pre ++ x ++ nl) xs acc
    = acc ++ List.concat (map (fun x => pre ++ x ++ nl) xs)).
  { intros pre xs; induction xs as [|x xs IH]; intros acc; simpl.
    - now rewrite app_nil_r.
    - rewrite IH. now rewrite <- !app_assoc. }
  rewrite !Hloop. now rewrite <- !app_assoc.
Qed.

(** C4.  When validation returns a result that is not valid,
    [process_disclosure] with validation enabled returns [None] for the
    application together with that result, and [generate_enhanced_patent]
    returns the message that lists its errors, then its warnings; neither
    makes a call to the assembly stage: the trace of calls is left as it
    was. *)
Theorem invalid_disclosure_is_not_assembled d r t :
  validate_disclosure d = Ok r -> is_valid r = false ->
  process_disclosure writer d true t = (Ok (None, Some r), t)
  /\ generate_enhanced_patent writer d t
     = (Ok (validation_failure_message (Some r)), t)
  /\ validation_failure_message (Some r)
     = (utf8 "交底书验证失败：" ++ nl)
       ++ List.concat (map (fun error => utf8 "❌ " ++ error ++ nl) (errors r))
       ++ List.concat
            (map (fun warning => utf8 "⚠️ " ++ warning ++ nl) (warnings r))
  /\ snd (run (process_disclosure writer d true)) = []
  /\ snd (run (generate_enhanced_patent writer d)) = [].
Proof.
  intros Hr Hv.
  assert (Hp : forall t', process_disclosure writer d true t'
                          = (Ok (None, Some r), t')).
  { intros t'. unfold process_disclosure, pbind, lift. rewrite Hr, Hv.
    reflexivity. }
  assert (Hg : forall t', generate_enhanced_patent writer d t'
                          = (Ok (validation_failure_message (Some r)), t')).
  { intros t'. unfold generate_enhanced_patent, pbind. rewrite Hp.
    reflexivity. }
  unfold run. rewrite !Hp, !Hg.
  repeat split; try reflexivity. apply validation_failure_message_lists.
Qed.

(** C10 (amended).  With [validate] false and the technical solution
    present, [process_disclosure] returns [None] as validation result and
    the application the writer produces, under the disclosure's title,
    after exactly one call of the writer; [validate_disclosure] is not
    consulted, so this holds for disclosures it rejects as well. *)
Theorem validation_bypass d ts t :
  technical_solution d = Some ts ->
  exists request,
    disclosure_to_patent_request d = Ok request
    /\ process_disclosure writer d false t
       = (Ok (Some (PatentSchemas.set_title
                      (writer request (applicant_info_of d)
                         (inventor_info_of d))
                      (title d)),
              None),
          t ++ [GeneratePatentApplication request (applicant_info_of d)
                  (inventor_info_of d)]).
Proof.
  intros Hts.
  destruct (disclosure_to_patent_request_present d ts Hts) as [request Hreq].
  exists request. split; [exact Hreq|].
  unfold process_disclosure. now apply assemble_application_ok.
Qed.

(** Without the technical solution the normalizer raises before the writer
    is called, with or without validation. *)
Lemma process_disclosure_absent d validate t :
  technical_solution d = None ->
  process_disclosure writer d validate t = (Raise AttributeError, t).
Proof.
  intros H. unfold process_disclosure, assemble_application, pbind, lift.
  rewrite (validate_disclosure_absent d H),
    (disclosure_to_patent_request_absent d H).
  now destruct validate.
Qed.

End PipelineTheorems.

(** C10 as stated fails: [no_solution] with [validate] false raises
    [AttributeError] in the normalizer, and no application is returned. *)
Lemma validation_bypass_counterexample :
  run (process_disclosure sample_writer no_solution false)
  = (Raise AttributeError, [])
  /\ ~ validation_bypass_as_stated.
Proof.
  assert (H : run (process_disclosure sample_writer no_solution false)
              = (Raise AttributeError, []))
    by (apply process_disclosure_absent; reflexivity).
  split; [exact H|].
  intros Hall. destruct (Hall sample_writer no_solution) as (a & tr & Ha).
  rewrite H in Ha. discriminate.
Qed.

(* ================================================================== *)
(** * The theorems at concrete disclosures *)
(* ================================================================== *)

Section Instances.

(** C5 at Scenario B, an invalid disclosure with warnings and suggestions. *)
Lemma is_valid_iff_no_errors_witness :
  technical_solution scenario_B = Some sample_solution
  /\ exists r, validate_disclosure scenario_B = Ok r
       /\ (is_valid r = true <-> errors r = [])
       /\ (forall d' r', validate_disclosure d' = Ok r' ->
             errors r' = errors r -> is_valid r' = is_valid r).
Proof.
  split; [reflexivity|].
  exact (is_valid_iff_no_errors scenario_B sample_solution eq_refl).
Defined.

(** C6 at the maximally deficient utility model: the running score is -10,
    the returned score 0. *)
Lemma completeness_score_in_range_witness :
  raw_score maximally_deficient = (-10)%Z
  /\ exists r, validate_disclosure maximally_deficient = Ok r
       /\ (0 <= completeness_score r <= 100)%Z
       /\ completeness_score r
          = Z.max 0 (Z.min 100 (raw_score maximally_deficient))
       /\ ((raw_score maximally_deficient < 0)%Z ->
           completeness_score r = 0%Z).
Proof.
  split; [reflexivity|].
  exact (completeness_score_in_range maximally_deficient _ eq_refl).
Defined.

(** C7 at Scenario B. *)
Lemma utility_model_without_figures_witness :
  patent_type scenario_B = utf8 "utility_model"
  /\ figure_descriptions scenario_B = []
  /\ exists r, validate_disclosure scenario_B = Ok r
       /\ In msg_figures (warnings r)
       /\ In msg_utility_model_figures (errors r)
       /\ is_valid r = false
       /\ completeness_score r = Z.max 0 (Z.min 100 (raw_score scenario_B))
       /\ (forall figs, figs <> [] ->
             raw_score scenario_B
             = (raw_score (with_figure_descriptions scenario_B figs)
                - 5 - 10)%Z)
       /\ (forall ty, ty <> utf8 "utility_model" ->
             raw_score scenario_B
             = (raw_score (with_patent_type scenario_B ty) - 10)%Z)
       /\ (forall ty r', ty <> utf8 "utility_model" ->
             validate_disclosure (with_patent_type scenario_B ty) = Ok r' ->
             completeness_score r' = 90%Z -> completeness_score r = 80%Z).
Proof.
  split; [reflexivity|]. split; [reflexivity|].
  exact (utility_model_without_figures scenario_B sample_solution
           eq_refl eq_refl eq_refl).
Defined.

(** C9 at Scenario A and the same disclosure with one embodiment. *)
Lemma completeness_score_monotone_witness :
  satisfies_one_more scenario_A with_one_embodiment
  /\ exists r1, validate_disclosure scenario_A = Ok r1
       /\ exists r2, validate_disclosure with_one_embodiment = Ok r2
            /\ (completeness_score r1 <= completeness_score r2)%Z.
Proof.
  assert (Hmore : satisfies_one_more scenario_A with_one_embodiment)
    by (apply more_embodiments; reflexivity).
  split; [exact Hmore|].
  eexists. split; [vm_compute; reflexivity|].
  apply (completeness_score_monotone scenario_A with_one_embodiment _ Hmore).
  vm_compute; reflexivity.
Defined.

(** C1 (amended) at Scenario A. *)
Lemma claim_count_witness :
  exists r, validate_disclosure scenario_A = Ok r /\ is_valid r = true
    /\ exists ts deps,
         technical_solution scenario_A = Some ts
         /\ _generate_claims_from_disclosure scenario_A
            = Ok (independent_claim scenario_A ts :: deps ++ [system_claim])
         /\ deps = (if truthy (innovation_points ts)
                    then map (fun '(i, point) =>
                                dependent_claim scenario_A i point)
                           (enumerate 2 (slice_to 4 (innovation_points ts)))
                    else [default_claim_2 scenario_A;
                          default_claim_3 scenario_A;
                          default_claim_4 scenario_A])
         /\ len deps = (if truthy (innovation_points ts)
                        then Nat.min 4 (len (innovation_points ts)) else 3)
         /\ 3 <= len (independent_claim scenario_A ts
                        :: deps ++ [system_claim]) <= 6
         /\ (3 <= len deps <->
             len (innovation_points ts) = 0
             \/ 3 <= len (innovation_points ts))
         /\ (5 <= len (independent_claim scenario_A ts
                         :: deps ++ [system_claim]) <->
             len (innovation_points ts) = 0
             \/ 3 <= len (innovation_points ts)).
Proof.
  eexists. split; [vm_compute; reflexivity|]. split; [vm_compute; reflexivity|].
  eapply (claim_count scenario_A); vm_compute; reflexivity.
Defined.


(** C4 at Scenario B. *)
Lemma invalid_disclosure_is_not_assembled_witness :
  exists r, validate_disclosure scenario_B = Ok r /\ is_valid r = false
    /\ process_disclosure sample_writer scenario_B true []
       = (Ok (None, Some r), [])
    /\ generate_enhanced_patent sample_writer scenario_B []
       = (Ok (validation_failure_message (Some r)), [])
    /\ validation_failure_message (Some r)
       = (utf8 "交底书验证失败：" ++ nl)
         ++ List.concat
              (map (fun error => utf8 "❌ " ++ error ++ nl) (errors r))
         ++ List.concat
              (map (fun warning => utf8 "⚠️ " ++ warning ++ nl) (warnings r))
    /\ snd (run (process_disclosure sample_writer scenario_B true)) = []
    /\ snd (run (generate_enhanced_patent sample_writer scenario_B)) = [].
Proof.
  eexists. split; [vm_compute; reflexivity|]. split; [vm_compute; reflexivity|].
  apply (invalid_disclosure_is_not_assembled sample_writer scenario_B _ []);
    vm_compute; reflexivity.
Defined.

(** C10 (amended) at Scenario B, which the validator rejects. *)
Lemma validation_bypass_witness :
  technical_solution scenario_B = Some sample_solution
  /\ exists request,
       disclosure_to_patent_request scenario_B = Ok request
       /\ process_disclosure sample_writer scenario_B false []
          = (Ok (Some (PatentSchemas.set_title
                         (sample_writer request (applicant_info_of scenario_B)
                            (inventor_info_of scenario_B))
                         (title scenario_B)),
                 None),
             [] ++ [GeneratePatentApplication request
                      (applicant_info_of scenario_B)
                      (inventor_info_of scenario_B)]).
Proof.
  split; [reflexivity|].
  exact (validation_bypass sample_writer scenario_B sample_solution []
           eq_refl).
Defined.

End Instances.

(* ================================================================== *)
(** * The scenarios of the spec, evaluated *)
(* ================================================================== *)

Section Scenarios.

Example utf8_examples :
  utf8 "1. " = [49; 46; 32]%N /\ utf8 "中国" = [20013; 22269]%N
  /\ utf8 "❌" = [10060]%N.
Proof. repeat split; reflexivity. Qed.

Example strip_example : strip (utf8 "  ab c " ++ nl) = utf8 "ab c".
Proof. reflexivity. Qed.

Example str_of_nat_examples :
  str_of_nat 0 = utf8 "0" /\ str_of_nat 5 = utf8 "5"
  /\ str_of_nat 12 = utf8 "12".
Proof. repeat split; reflexivity. Qed.

(** Scenario A: valid, score 90, five claims numbered 1 to 5. *)
Example scenario_A_validation :
  exists r, validate_disclosure scenario_A = Ok r
    /\ is_valid r = true /\ errors r = []
    /\ warnings r = [msg_embodiments; msg_figures]
    /\ suggestions r = [msg_innovation_points; msg_prior_art; msg_contact_email]
    /\ completeness_score r = 90%Z.
Proof.
  eexists. split; [vm_compute; reflexivity|].
  repeat split; vm_compute; reflexivity.
Qed.

Example scenario_A_claims :
  exists claims, _generate_claims_from_disclosure scenario_A = Ok claims
    /\ map claim_number claims = [Some 1; Some 2; Some 3; Some 4; Some 5]
    /\ claims = [independent_claim scenario_A sample_solution;
                 default_claim_2 scenario_A; default_claim_3 scenario_A;
                 default_claim_4 scenario_A; system_claim].
Proof.
  eexists. split; [vm_compute; reflexivity|].
  split; vm_compute; reflexivity.
Qed.

(** Scenario B: the utility-model error, score 80, invalid. *)
Example scenario_B_validation :
  exists r, validate_disclosure scenario_B = Ok r
    /\ is_valid r = false /\ errors r = [msg_utility_model_figures]
    /\ completeness_score r = 80%Z.
Proof.
  eexists. split; [vm_compute; reflexivity|].
  repeat split; vm_compute; reflexivity.
Qed.

(** Scenario C: an empty title costs 15 and makes the result invalid. *)
Example scenario_C_validation :
  exists r, validate_disclosure scenario_C = Ok r
    /\ is_valid r = false /\ errors r = [msg_title]
    /\ completeness_score r = 75%Z.
Proof.
  eexists. split; [vm_compute; reflexivity|].
  repeat split; vm_compute; reflexivity.
Qed.

(** Scenario D: six distinct points give four dependent claims; the texts
    of points 5 and 6 stand in none of the six claims. *)
Example scenario_D_claims :
  exists claims, _generate_claims_from_disclosure six_points = Ok claims
    /\ map claim_number claims
       = [Some 1; Some 2; Some 3; Some 4; Some 5; Some 5]
    /\ existsb (contains (utf8 "创新点5")) claims = false
    /\ existsb (contains (utf8 "创新点6")) claims = false.
Proof.
  eexists. split; [vm_compute; reflexivity|].
  repeat split; vm_compute; reflexivity.
Qed.

(** A valid disclosure goes through both assembly calls. *)
Example scenario_A_pipeline :
  exists text request application,
    run (generate_enhanced_patent sample_writer scenario_A)
    = (Ok text,
       [GeneratePatentApplication request (applicant_info_of scenario_A)
          (inventor_info_of scenario_A);
        FormatEnhancedApplication application scenario_A])
    /\ PatentSchemas.app_title application = title scenario_A.
Proof.
  eexists; eexists; eexists. split; vm_compute; reflexivity.
Qed.

End Scenarios.

(* ================================================================== *)
(** * Further properties: strings *)
(* ================================================================== *)

Section StringFacts.

Lemma blank_app (a b : str) : blank (a ++ b) = blank a && blank b.
Proof. apply forallb_app. Qed.

Lemma blank_rev (s : str) : blank (rev s) = blank s.
Proof.
  induction s as [|c s IH]; [reflexivity|].
  simpl. rewrite blank_app, IH. simpl. rewrite andb_true_r. apply andb_comm.
Qed.

Lemma lstrip_nil_iff (s : str) : lstrip s = [] <-> blank s = true.
Proof.
  induction s as [|c s IH]; simpl; [tauto|].
  destruct (isspace c); simpl; [exact IH|]. split; discriminate.
Qed.

Lemma blank_lstrip (s : str) : blank (lstrip s) = blank s.
Proof.
  induction s as [|c s IH]; [reflexivity|].
  simpl. destruct (isspace c) eqn:E; simpl; [exact IH|now rewrite E].
Qed.

Lemma lstrip_app_blank_l (w s : str) :
  blank w = true -> lstrip (w ++ s) = lstrip s.
Proof.
  induction w as [|c w IH]; simpl; [reflexivity|].
  intros H. apply andb_true_iff in H as [Hc Hw]. now rewrite Hc, IH.
Qed.

Lemma lstrip_app_not_blank (s w : str) :
  blank s = false -> lstrip (s ++ w) = lstrip s ++ w.
Proof.
  induction s as [|c s IH]; simpl; [discriminate|].
  destruct (isspace c); simpl; [exact IH|reflexivity].
Qed.

Lemma rstrip_app_blank_r (s w : str) :
  blank w = true -> rstrip (s ++ w) = rstrip s.
Proof.
  intros H. unfold rstrip. rewrite rev_app_distr.
  rewrite lstrip_app_blank_l; [reflexivity|now rewrite blank_rev].
Qed.

Lemma rstrip_nil_iff (s : str) : rstrip s = [] <-> blank s = true.
Proof.
  unfold rstrip. rewrite <- (blank_rev s), <- lstrip_nil_iff.
  split; intros H.
  - apply (f_equal (@rev char)) in H. now rewrite rev_involutive in H.
  - now rewrite H.
Qed.

Lemma strip_nil_iff (s : str) : strip s = [] <-> blank s = true.
Proof. unfold strip. now rewrite rstrip_nil_iff, blank_lstrip. Qed.

(** Whitespace around a string does not change what [strip] returns. *)
Lemma strip_pad (w1 s w2 : str) :
  blank w1 = true -> blank w2 = true -> strip (w1 ++ s ++ w2) = strip s.
Proof.
  intros H1 H2. unfold strip. rewrite (lstrip_app_blank_l w1 _ H1).
  destruct (blank s) eqn:E.
  - rewrite (lstrip_app_blank_l s w2 E).
    rewrite (proj2 (lstrip_nil_iff w2) H2), (proj2 (lstrip_nil_iff s) E).
    reflexivity.
  - rewrite (lstrip_app_not_blank s w2 E). now apply rstrip_app_blank_r.
Qed.

Lemma startswith_app (x b : str) : startswith x (x ++ b) = true.
Proof.
  induction x as [|c x IH]; simpl; [reflexivity|].
  now rewrite N.eqb_refl, IH.
Qed.

Lemma startswith_app_l (x a b : str) :
  startswith x a = true -> startswith x (a ++ b) = true.
Proof.
  revert a; induction x as [|c x IH]; intros a; simpl; [reflexivity|].
  destruct a as [|y a]; simpl; [discriminate|].
  intros H. apply andb_true_iff in H as [H1 H2].
  now rewrite H1, (IH a H2).
Qed.

Lemma contains_app_l (x a b : str) :
  contains x a = true -> contains x (a ++ b) = true.
Proof.
  induction a as [|c a IH]; simpl.
  - rewrite orb_false_r. intros H. destruct x; [|discriminate].
    destruct b; reflexivity.
  - intros H. apply orb_true_iff in H as [H|H].
    + change (c :: a ++ b) with ((c :: a) ++ b).
      now rewrite (startswith_app_l x (c :: a) b H).
    + rewrite (IH H). apply orb_true_r.
Qed.

Lemma contains_app_r (x a b : str) :
  contains x b = true -> contains x (a ++ b) = true.
Proof.
  intros H. induction a as [|c a IH]; simpl; [exact H|].
  rewrite IH. apply orb_true_r.
Qed.

Lemma contains_here (x b : str) : contains x (x ++ b) = true.
Proof.
  destruct (x ++ b) eqn:E; simpl.
  - destruct x; [reflexivity|discriminate].
  - rewrite <- E, startswith_app. reflexivity.
Qed.

Lemma contains_mid (x a b : str) : contains x (a ++ x ++ b) = true.
Proof. apply contains_app_r, contains_here. Qed.

Lemma split_not_nil (sep : char) (s : str) : PyStr.split sep s <> [].
Proof.
  induction s as [|c s IH]; simpl; [discriminate|].
  destruct (c =? sep)%N; [discriminate|].
  destruct (PyStr.split sep s); discriminate.
Qed.

End StringFacts.

(* ================================================================== *)
(** * Further properties: the validator *)
(* ================================================================== *)

(** Two messages of the source that differ are told apart by evaluation. *)
Ltac msg_discr H :=
  exfalso; apply str_eqb_eq in H; vm_compute in H; discriminate H.

Ltac split_cases :=
  repeat match goal with
  | H : _ \/ _ |- _ => destruct H as [H|H]
  | H : _ /\ _ |- _ => destruct H as [? H]
  | H : exists _, _ |- _ => destruct H as [? H]
  end.

Section ValidatorFindings.

Local Open Scope Z_scope.

Lemma in_only_if (m m' : str) (c : bool) :
  In m (only_if c m') <-> c = true /\ m' = m.
Proof.
  destruct c; simpl; split; intros H.
  - destruct H as [H|[]]. now split.
  - left. apply H.
  - destruct H.
  - destruct H; discriminate.
Qed.

Lemma in_solution_errors (m : str) (d : PatentDisclosure) :
  In m (solution_errors d) <->
  (technical_solution d = None /\ msg_solution_absent = m)
  \/ (exists ts, technical_solution d = Some ts
        /\ truthy (overview ts) = false /\ msg_overview_absent = m).
Proof.
  unfold solution_errors. destruct (technical_solution d) as [ts|]; simpl.
  - rewrite in_only_if. split.
    + intros [H1 H2]. right. exists ts. apply negb_true_iff in H1. auto.
    + intros [[H _]|(ts' & H1 & H2 & H3)]; [discriminate|].
      injection H1 as <-. split; [now apply negb_true_iff|exact H3].
  - split.
    + intros [H|[]]. left. auto.
    + intros [[_ H]|(ts' & H1 & _)]; [now left|discriminate].
Qed.

(** Which checks put [m] among the errors. *)
Lemma in_errors_of (m : str) (d : PatentDisclosure) :
  In m (errors_of d) <->
  (title_fails d = true /\ msg_title = m)
  \/ (inventors_fails d = true /\ msg_inventors = m)
  \/ (applicant_name_fails d = true /\ msg_applicant_name = m)
  \/ (technical_field_fails d = true /\ msg_technical_field = m)
  \/ (background_fails d = true /\ msg_background = m)
  \/ (technical_problems_fails d = true /\ msg_technical_problems = m)
  \/ (technical_solution d = None /\ msg_solution_absent = m)
  \/ (exists ts, technical_solution d = Some ts
        /\ truthy (overview ts) = false /\ msg_overview_absent = m)
  \/ (beneficial_effects_fails d = true /\ msg_beneficial_effects = m)
  \/ (utility_model_figures_fails d = true /\ msg_utility_model_figures = m).
Proof.
  unfold errors_of. rewrite !in_app_iff, !in_only_if, in_solution_errors.
  simpl. tauto.
Qed.

Lemma in_warnings_of (m : str) (d : PatentDisclosure) :
  In m (warnings_of d) <->
  (embodiments_fails d = true /\ msg_embodiments = m)
  \/ (figures_fails d = true /\ msg_figures = m).
Proof.
  unfold warnings_of. rewrite !in_app_iff, !in_only_if. simpl. tauto.
Qed.

(** What the suggestion statements do to the state. *)
Lemma suggestions_when_error c m w st :
  st_suggestions (when c (report_error m w) st) = st_suggestions st.
Proof. now destruct c. Qed.

Lemma suggestions_when_warning c m w st :
  st_suggestions (when c (report_warning m w) st) = st_suggestions st.
Proof. now destruct c. Qed.

Lemma suggestions_check_solution d st :
  st_suggestions (check_solution d st) = st_suggestions st.
Proof.
  unfold check_solution.
  destruct (technical_solution d) as [ts|]; simpl; [|reflexivity].
  now destruct (truthy (overview ts)).
Qed.

Lemma suggestions_when_suggest c m st :
  st_suggestions (when c (suggest m) st) = st_suggestions st ++ only_if c m.
Proof. destruct c; simpl; [reflexivity|now rewrite app_nil_r]. Qed.

Lemma penalty_checks_suggestions d : st_suggestions (penalty_checks d) = [].
Proof.
  unfold penalty_checks; cbv zeta.
  repeat first [ rewrite suggestions_when_error
               | rewrite suggestions_when_warning
               | rewrite suggestions_check_solution ].
  reflexivity.
Qed.

Lemma validate_disclosure_suggestions d ts r :
  technical_solution d = Some ts -> validate_disclosure d = Ok r ->
  suggestions r = suggestions_of d ts.
Proof.
  intros Hts. unfold validate_disclosure. rewrite Hts. cbn [deref bind].
  intros H. injection H as <-. cbn [suggestions].
  rewrite !suggestions_when_suggest, penalty_checks_suggestions.
  reflexivity.
Qed.

Lemma in_suggestions_of (m : str) d ts :
  In m (suggestions_of d ts) <->
  ((len (innovation_points ts) =? 0)%nat = true /\ msg_innovation_points = m)
  \/ ((len (prior_art_references d) =? 0)%nat = true /\ msg_prior_art = m)
  \/ (negb (truthy_opt (contact_email d)) = true /\ msg_contact_email = m).
Proof.
  unfold suggestions_of. rewrite !in_app_iff, !in_only_if. simpl. tauto.
Qed.

Lemma len_only_if (c : bool) (m : str) :
  Z.of_nat (len (only_if c m)) = Z.b2z c.
Proof. now destruct c. Qed.

Lemma penalty_b2z (c : bool) (w : Z) : penalty c w = w * Z.b2z c.
Proof. destruct c; simpl; lia. Qed.

Lemma b2z_range (c : bool) : 0 <= Z.b2z c <= 1.
Proof. destruct c; simpl; lia. Qed.

Lemma solution_errors_penalty d :
  exists k, solution_penalty d = 5 * k
    /\ ((k = 0 /\ Z.of_nat (len (solution_errors d)) = 0)
        \/ (2 <= k <= 3 /\ Z.of_nat (len (solution_errors d)) = 1)).
Proof.
  unfold solution_penalty, solution_errors.
  destruct (technical_solution d) as [ts|].
  - destruct (truthy (overview ts)); simpl.
    + exists 0. split; [reflexivity|]. left. split; reflexivity.
    + exists 2. split; [reflexivity|]. right. split; [lia|reflexivity].
  - exists 3. split; [reflexivity|]. right. split; [lia|reflexivity].
Qed.

Lemma errors_of_length d :
  Z.of_nat (len (errors_of d))
  = Z.b2z (title_fails d) + Z.b2z (inventors_fails d)
    + Z.b2z (applicant_name_fails d) + Z.b2z (technical_field_fails d)
    + Z.b2z (background_fails d) + Z.b2z (technical_problems_fails d)
    + Z.of_nat (len (solution_errors d))
    + Z.b2z (beneficial_effects_fails d)
    + Z.b2z (utility_model_figures_fails d).
Proof.
  unfold errors_of, len. rewrite !length_app, !Nat2Z.inj_add.
  change (@List.length str) with (@len str). rewrite !len_only_if.
  reflexivity.
Qed.

End ValidatorFindings.

Section ValidatorExtras.

Local Open Scope Z_scope.

(** X1.  A result without errors scores 100 less 5 per missing recommended
    field, hence at least 90; a result with an error scores at most 90;
    every score is a multiple of 5. *)
Theorem score_separates_validity d ts :
  technical_solution d = Some ts ->
  exists r, validate_disclosure d = Ok r
    /\ (is_valid r = true ->
        completeness_score r
        = 100 - penalty (embodiments_fails d) 5 - penalty (figures_fails d) 5
        /\ 90 <= completeness_score r)
    /\ (is_valid r = false -> completeness_score r <= 90)
    /\ (exists k, completeness_score r = 5 * k).
Proof.
  intros Hts.
  destruct (validate_disclosure_present d ts Hts) as (r & Hr & Hv & _ & _ & Hs).
  exists r. split; [exact Hr|]. rewrite Hv, Hs.
  pose proof (errors_of_length d) as Hlen.
  destruct (solution_errors_penalty d) as (k & Hk & Hsol).
  unfold clamp, raw_score. rewrite !penalty_b2z, Hk.
  pose proof (b2z_range (title_fails d)).
  pose proof (b2z_range (inventors_fails d)).
  pose proof (b2z_range (applicant_name_fails d)).
  pose proof (b2z_range (technical_field_fails d)).
  pose proof (b2z_range (background_fails d)).
  pose proof (b2z_range (technical_problems_fails d)).
  pose proof (b2z_range (beneficial_effects_fails d)).
  pose proof (b2z_range (utility_model_figures_fails d)).
  pose proof (b2z_range (embodiments_fails d)).
  pose proof (b2z_range (figures_fails d)).
  split; [|split].
  - intros Hvalid. apply Nat.eqb_eq in Hvalid. rewrite Hvalid in Hlen.
    simpl in Hlen. lia.
  - intros Hvalid. apply Nat.eqb_neq in Hvalid.
    assert (1 <= Z.of_nat (len (errors_of d))) by lia. lia.
  - destruct (Z_lt_dec
      (100 - 15 * Z.b2z (title_fails d) - 10 * Z.b2z (inventors_fails d)
       - 10 * Z.b2z (applicant_name_fails d)
       - 10 * Z.b2z (technical_field_fails d)
       - 10 * Z.b2z (background_fails d)
       - 15 * Z.b2z (technical_problems_fails d) - 5 * k
       - 10 * Z.b2z (beneficial_effects_fails d)
       - 5 * Z.b2z (embodiments_fails d) - 5 * Z.b2z (figures_fails d)
       - 10 * Z.b2z (utility_model_figures_fails d)) 0) as [Hneg|Hpos].
    + exists 0. lia.
    + exists (20 - 3 * Z.b2z (title_fails d) - 2 * Z.b2z (inventors_fails d)
       - 2 * Z.b2z (applicant_name_fails d)
       - 2 * Z.b2z (technical_field_fails d)
       - 2 * Z.b2z (background_fails d)
       - 3 * Z.b2z (technical_problems_fails d) - k
       - 2 * Z.b2z (beneficial_effects_fails d)
       - Z.b2z (embodiments_fails d) - Z.b2z (figures_fails d)
       - 2 * Z.b2z (utility_model_figures_fails d)). lia.
Qed.

End ValidatorExtras.

Section FindingsExact.

Ltac fwd_msg H := split_cases; first [ assumption | msg_discr H ].

Lemma fails_nil {A} (l : list A) :
  negb (truthy l) || (len l =? 0) = true <-> l = [].
Proof. destruct l; simpl; split; intros; try reflexivity; discriminate. Qed.

Lemma not_truthy_nil {A} (l : list A) : negb (truthy l) = true <-> l = [].
Proof. destruct l; simpl; split; intros; try reflexivity; discriminate. Qed.

Lemma strip_fails_iff (t : str) (n : nat) :
  0 < n -> negb (truthy t) || (len (strip t) <? n) = true <-> len (strip t) < n.
Proof.
  intros Hn. rewrite orb_true_iff, Nat.ltb_lt. split; [|tauto].
  intros [H|H]; [|exact H]. destruct t; [exact Hn|discriminate].
Qed.

Lemma utility_model_figures_fails_iff d :
  utility_model_figures_fails d = true <->
  patent_type d = utf8 "utility_model" /\ figure_descriptions d = [].
Proof.
  unfold utility_model_figures_fails. rewrite andb_true_iff, str_eqb_eq.
  destruct (figure_descriptions d); simpl; split; intros [H1 H2];
    split; try assumption; try reflexivity; discriminate.
Qed.

(** X2.  Each message is among the findings exactly when its check fails. *)
Theorem findings_reported_exactly d ts :
  technical_solution d = Some ts ->
  exists r, validate_disclosure d = Ok r
    /\ (In msg_title (errors r) <-> len (strip (title d)) < 5)
    /\ (In msg_inventors (errors r) <-> inventors d = [])
    /\ (In msg_applicant_name (errors r) <-> applicant_name d = [])
    /\ (In msg_technical_field (errors r) <->
        len (strip (technical_field d)) < 10)
    /\ (In msg_background (errors r) <->
        len (strip (background_description d)) < 50)
    /\ (In msg_technical_problems (errors r) <-> technical_problems d = [])
    /\ (In msg_overview_absent (errors r) <-> overview ts = [])
    /\ (In msg_beneficial_effects (errors r) <-> beneficial_effects d = [])
    /\ (In msg_utility_model_figures (errors r) <->
        patent_type d = utf8 "utility_model" /\ figure_descriptions d = [])
    /\ (In msg_embodiments (warnings r) <-> embodiments d = [])
    /\ (In msg_figures (warnings r) <-> figure_descriptions d = [])
    /\ (In msg_innovation_points (suggestions r) <-> innovation_points ts = [])
    /\ (In msg_prior_art (suggestions r) <-> prior_art_references d = [])
    /\ (In msg_contact_email (suggestions r) <->
        contact_email d = None \/ contact_email d = Some []).
Proof.
  intros Hts.
  destruct (validate_disclosure_present d ts Hts) as (r & Hr & _ & He & Hw & _).
  pose proof (validate_disclosure_suggestions d ts r Hts Hr) as Hsg.
  exists r. split; [exact Hr|]. rewrite He, Hw, Hsg.
  rewrite <- (strip_fails_iff (title d) 5) by lia.
  rewrite <- (strip_fails_iff (technical_field d) 10) by lia.
  rewrite <- (strip_fails_iff (background_description d) 50) by lia.
  rewrite <- utility_model_figures_fails_iff.
  rewrite <- (fails_nil (inventors d)), <- (not_truthy_nil (applicant_name d)),
    <- (fails_nil (technical_problems d)), <- (fails_nil (beneficial_effects d)),
    <- (fails_nil (embodiments d)), <- (fails_nil (figure_descriptions d)).
  repeat split; intros H.
  all: try (rewrite in_errors_of in H; fwd_msg H).
  all: try (rewrite in_warnings_of in H; fwd_msg H).
  all: try (rewrite in_suggestions_of in H; fwd_msg H).
  all: try (apply in_errors_of; pose proof (eq_refl msg_title);
            unfold title_fails, inventors_fails, applicant_name_fails,
              technical_field_fails, background_fails,
              technical_problems_fails, beneficial_effects_fails in *;
            tauto).
  all: try (apply in_warnings_of;
            unfold embodiments_fails, figures_fails in *; tauto).
  - rewrite in_errors_of in H. split_cases; try (msg_discr H).
    match goal with
    | E : technical_solution d = Some ?t, T : truthy (overview ?t) = false
      |- _ => rewrite Hts in E; injection E as <-;
              destruct (overview ts); [reflexivity|discriminate T]
    end.
  - apply in_errors_of. do 7 right. left. exists ts. rewrite H.
    split; [exact Hts|]. split; reflexivity.
  - rewrite in_suggestions_of in H. split_cases; try (msg_discr H).
    destruct (innovation_points ts); [reflexivity|discriminate].
  - apply in_suggestions_of. left. rewrite H. split; reflexivity.
  - rewrite in_suggestions_of in H. split_cases; try (msg_discr H).
    destruct (prior_art_references d); [reflexivity|discriminate].
  - apply in_suggestions_of. right; left. rewrite H. split; reflexivity.
  - rewrite in_suggestions_of in H. split_cases; try (msg_discr H).
    destruct (contact_email d) as [[|c e]|]; auto; discriminate.
  - apply in_suggestions_of. right; right.
    destruct H as [H|H]; rewrite H; split; reflexivity.
Qed.
End FindingsExact.

Section MoreValidator.

(** X3.  The message for an absent solution is in no result the validator
    returns: when the solution is absent, line 123 raises before the
    result is built. *)
Theorem absent_solution_message_never_returned d r :
  validate_disclosure d = Ok r -> ~ In msg_solution_absent (errors r).
Proof.
  intros Hr Hin.
  destruct (validate_disclosure_ok_inv d r Hr) as [ts Hts].
  destruct (validate_disclosure_ok d r Hr) as (_ & He & _).
  rewrite He, in_errors_of in Hin. split_cases; try (msg_discr Hin).
  congruence.
Qed.

(** X4.  The utility-model figure error is never reported without the generic
    figure warning. *)
Theorem utility_model_error_implies_figure_warning d r :
  validate_disclosure d = Ok r ->
  In msg_utility_model_figures (errors r) -> In msg_figures (warnings r).
Proof.
  intros Hr Hin.
  destruct (validate_disclosure_ok d r Hr) as (_ & He & Hw & _).
  rewrite He, in_errors_of in Hin. rewrite Hw, in_warnings_of.
  split_cases; try (msg_discr Hin).
  right. split; [|reflexivity].
  match goal with E : utility_model_figures_fails d = true |- _ =>
    apply utility_model_figures_fails_iff in E; destruct E as [_ Hfig] end.
  unfold figures_fails. now rewrite Hfig.
Qed.

Lemma title_fails_strip d : title_fails d = (len (strip (title d)) <? 5).
Proof.
  unfold title_fails. destruct (title d); reflexivity.
Qed.

Lemma technical_field_fails_strip d :
  technical_field_fails d = (len (strip (technical_field d)) <? 10).
Proof.
  unfold technical_field_fails. destruct (technical_field d); reflexivity.
Qed.

Lemma background_fails_strip d :
  background_fails d = (len (strip (background_description d)) <? 50).
Proof.
  unfold background_fails. destruct (background_description d); reflexivity.
Qed.

(** X5.  Whitespace around the title, the technical field or the background
    changes nothing in what the validator returns. *)
Theorem surrounding_whitespace_is_ignored d w1 w2 :
  blank w1 = true -> blank w2 = true ->
  validate_disclosure (with_title d (w1 ++ title d ++ w2))
  = validate_disclosure d
  /\ validate_disclosure
       (with_technical_field d (w1 ++ technical_field d ++ w2))
     = validate_disclosure d
  /\ validate_disclosure
       (with_background_description d
          (w1 ++ background_description d ++ w2))
     = validate_disclosure d.
Proof.
  intros H1 H2.
  assert (Ht : title_fails (with_title d (w1 ++ title d ++ w2))
               = title_fails d).
  { rewrite !title_fails_strip. simpl. now rewrite strip_pad. }
  assert (Hf : technical_field_fails
                 (with_technical_field d (w1 ++ technical_field d ++ w2))
               = technical_field_fails d).
  { rewrite !technical_field_fails_strip. simpl. now rewrite strip_pad. }
  assert (Hb : background_fails
                 (with_background_description d
                    (w1 ++ background_description d ++ w2))
               = background_fails d).
  { rewrite !background_fails_strip. simpl. now rewrite strip_pad. }
  repeat split; unfold validate_disclosure, penalty_checks.
  - rewrite Ht. reflexivity.
  - rewrite Hf. reflexivity.
  - rewrite Hb. reflexivity.
Qed.

End MoreValidator.

Section MoreValidator2.

(** X6.  A title, technical field or background made of whitespace only is
    reported whatever its length, whereas any non-empty applicant name,
    whitespace included, passes. *)
Theorem blank_text_is_rejected d r :
  validate_disclosure d = Ok r ->
  (blank (title d) = true -> In msg_title (errors r))
  /\ (blank (technical_field d) = true -> In msg_technical_field (errors r))
  /\ (blank (background_description d) = true ->
      In msg_background (errors r))
  /\ (applicant_name d <> [] -> ~ In msg_applicant_name (errors r)).
Proof.
  intros Hr.
  destruct (validate_disclosure_ok d r Hr) as (_ & He & _).
  rewrite He. repeat split.
  - intros Hb. apply in_errors_of. left. split; [|reflexivity].
    rewrite title_fails_strip, (proj2 (strip_nil_iff _) Hb). reflexivity.
  - intros Hb. apply in_errors_of. do 3 right. left. split; [|reflexivity].
    rewrite technical_field_fails_strip, (proj2 (strip_nil_iff _) Hb).
    reflexivity.
  - intros Hb. apply in_errors_of. do 4 right. left. split; [|reflexivity].
    rewrite background_fails_strip, (proj2 (strip_nil_iff _) Hb).
    reflexivity.
  - intros Hne Hin. rewrite in_errors_of in Hin.
    split_cases; try (msg_discr Hin).
    match goal with E : applicant_name_fails d = true |- _ =>
      unfold applicant_name_fails in E; destruct (applicant_name d);
      [now apply Hne|discriminate E] end.
Qed.

Lemma nodupb_sound (l : list str) : nodupb l = true -> NoDup l.
Proof.
  induction l as [|x l IH]; simpl; [constructor|].
  intros H. apply andb_true_iff in H as [Hx Hl].
  constructor; [|now apply IH].
  intros Hin. apply negb_true_iff in Hx.
  assert (existsb (str_eqb x) l = true); [|congruence].
  apply existsb_exists. exists x. split; [exact Hin|apply str_eqb_refl].
Qed.

(** The messages of the rows a table selects are distinct when those of
    all its rows are. *)
Lemma selected_messages_NoDup (t : list (bool * str)) :
  NoDup (map snd t) -> NoDup (map snd (filter fst t)).
Proof.
  induction t as [|[c m] t IH]; cbn [map filter snd fst]; intros Hnd;
    [constructor|].
  apply NoDup_cons_iff in Hnd as [Hm Ht].
  destruct c; cbn [map snd]; [|exact (IH Ht)].
  apply NoDup_cons; [|exact (IH Ht)].
  contradict Hm. apply in_map_iff in Hm as ([c' m'] & Hsnd & Hin).
  apply filter_In in Hin as [Hin _]. apply in_map_iff. now exists (c', m').
Qed.

Lemma table_one (c : bool) (m : str) (t : list (bool * str)) :
  map snd (filter fst ((c, m) :: t)) = only_if c m ++ map snd (filter fst t).
Proof. destruct c; reflexivity. Qed.

Lemma errors_of_table d :
  errors_of d = map snd (filter fst (error_table d)).
Proof.
  unfold error_table. rewrite !table_one. simpl (map snd (filter fst [])).
  unfold errors_of.
  assert (Hsol : solution_errors d
    = only_if (match technical_solution d with
               | None => true | Some _ => false end) msg_solution_absent
      ++ only_if (match technical_solution d with
                  | None => false
                  | Some ts => negb (truthy (overview ts))
                  end) msg_overview_absent).
  { unfold solution_errors. destruct (technical_solution d) as [ts|];
      [destruct (truthy (overview ts))|]; reflexivity. }
  rewrite Hsol. rewrite app_nil_r. simpl ([] ++ _).
  rewrite <- !app_assoc. reflexivity.
Qed.

(** X7.  No message is reported twice, and a result has at most nine errors,
    two warnings and three suggestions. *)
Theorem findings_bounded_without_duplicates d r :
  validate_disclosure d = Ok r ->
  NoDup (errors r) /\ len (errors r) <= 9
  /\ NoDup (warnings r) /\ len (warnings r) <= 2
  /\ NoDup (suggestions r) /\ len (suggestions r) <= 3.
Proof.
  intros Hr.
  destruct (validate_disclosure_ok_inv d r Hr) as [ts Hts].
  destruct (validate_disclosure_ok d r Hr) as (_ & He & Hw & _).
  rewrite He, Hw, (validate_disclosure_suggestions d ts r Hts Hr).
  split; [|split; [|split; [|split; [|split]]]].
  - rewrite errors_of_table. apply selected_messages_NoDup.
    apply nodupb_sound. vm_compute. reflexivity.
  - pose proof (errors_of_length d) as Hlen.
    destruct (solution_errors_penalty d) as (k & _ & Hsol).
    pose proof (b2z_range (title_fails d)).
    pose proof (b2z_range (inventors_fails d)).
    pose proof (b2z_range (applicant_name_fails d)).
    pose proof (b2z_range (technical_field_fails d)).
    pose proof (b2z_range (background_fails d)).
    pose proof (b2z_range (technical_problems_fails d)).
    pose proof (b2z_range (beneficial_effects_fails d)).
    pose proof (b2z_range (utility_model_figures_fails d)).
    lia.
  - unfold warnings_of.
    destruct (embodiments_fails d), (figures_fails d); simpl;
      apply nodupb_sound; vm_compute; reflexivity.
  - unfold warnings_of.
    destruct (embodiments_fails d), (figures_fails d); simpl; lia.
  - unfold suggestions_of.
    destruct (len (innovation_points ts) =? 0),
      (len (prior_art_references d) =? 0),
      (negb (truthy_opt (contact_email d))); simpl;
      apply nodupb_sound; vm_compute; reflexivity.
  - unfold suggestions_of.
    destruct (len (innovation_points ts) =? 0),
      (len (prior_art_references d) =? 0),
      (negb (truthy_opt (contact_email d))); simpl; lia.
Qed.

End MoreValidator2.

(* ================================================================== *)
(** * Further properties: the claim synthesizer *)
(* ================================================================== *)

Section ClaimExtras.

Lemma steps_loop (ps : list (nat * str)) (acc : str) :
  for_ ps (fun '(i, step) claim1 =>
    claim1 ++ utf8 "    （" ++ str_of_nat (i + 1) ++ utf8 "）" ++ step
      ++ utf8 "；" ++ nl) acc
  = acc ++ List.concat (map (fun '(i, step) => step_clause i step) ps).
Proof.
  unfold for_. revert acc; induction ps as [|[i step] ps IH]; intros acc;
    cbn [fold_left map List.concat].
  - now rewrite app_nil_r.
  - rewrite IH. unfold step_clause. now rewrite <- !app_assoc.
Qed.

(** Claim 1 in closed form. *)
Lemma independent_claim_closed d ts :
  independent_claim d ts
  = utf8 "1. " ++ title d ++ utf8 "，其特征在于：" ++ nl
    ++ (if truthy (key_steps ts)
        then List.concat (map (fun '(i, step) => step_clause i step)
                            (enumerate 0 (key_steps ts)))
        else utf8 "    包括" ++ slice_to 50 (overview ts) ++ utf8 "。").
Proof.
  unfold independent_claim. destruct (truthy (key_steps ts)).
  - rewrite steps_loop. now rewrite <- !app_assoc.
  - now rewrite <- !app_assoc.
Qed.

Lemma claim_number_independent d ts :
  claim_number (independent_claim d ts) = Some 1.
Proof. rewrite independent_claim_closed. reflexivity. Qed.

Lemma claim_number_dependent d i p :
  2 <= i <= 5 -> claim_number (dependent_claim d i p) = Some i.
Proof.
  intros Hi.
  destruct i as [|[|[|[|[|[|i]]]]]]; try lia; reflexivity.
Qed.

Lemma claim_number_defaults d :
  claim_number (default_claim_2 d) = Some 2
  /\ claim_number (default_claim_3 d) = Some 3
  /\ claim_number (default_claim_4 d) = Some 4
  /\ claim_number system_claim = Some 5.
Proof. repeat split; reflexivity. Qed.

(** X8.  The claims are numbered 1, 2, 3, ... without a gap or a repetition
    exactly when the disclosure has no innovation point or has three. *)
Theorem claim_numbers_contiguous_iff d ts :
  technical_solution d = Some ts ->
  exists claims, _generate_claims_from_disclosure d = Ok claims
    /\ (map claim_number claims = map Some (seq 1 (len claims)) <->
        len (innovation_points ts) = 0 \/ len (innovation_points ts) = 3).
Proof.
  intros Hts. eexists. split; [exact (generate_claims_present d ts Hts)|].
  destruct (claim_number_defaults d) as (D2 & D3 & D4 & D5).
  unfold dependent_claims.
  destruct (innovation_points ts) as [|p1 [|p2 [|p3 [|p4 rest]]]];
    cbn [truthy slice_to firstn enumerate map app len List.length seq];
    rewrite ?claim_number_independent, ?D2, ?D3, ?D4, ?D5,
      ?claim_number_dependent by lia;
    split; intros H; try discriminate H; try reflexivity; try lia;
    try (left; reflexivity); try (right; reflexivity).
Qed.

(** X9.  The claim set reads the title, the key steps, the first four
    innovation points and, when there is no key step, the first fifty
    characters of the overview; nothing else of the disclosure. *)
Theorem claims_read_only d d' ts ts' :
  technical_solution d = Some ts ->
  technical_solution d' = Some ts' ->
  title d = title d' ->
  key_steps ts = key_steps ts' ->
  (key_steps ts = [] ->
   slice_to 50 (overview ts) = slice_to 50 (overview ts')) ->
  slice_to 4 (innovation_points ts) = slice_to 4 (innovation_points ts') ->
  _generate_claims_from_disclosure d = _generate_claims_from_disclosure d'.
Proof.
  intros Hts Hts' Ht Hk Ho Hp.
  rewrite (generate_claims_present d ts Hts),
    (generate_claims_present d' ts' Hts').
  assert (H1 : independent_claim d ts = independent_claim d' ts').
  { rewrite !independent_claim_closed, <- Ht, <- Hk.
    destruct (key_steps ts); [|reflexivity].
    now rewrite (Ho eq_refl). }
  assert (H2 : dependent_claims d ts = dependent_claims d' ts').
  { unfold dependent_claims, dependent_claim, default_claim_2,
      default_claim_3, default_claim_4.
    rewrite <- Ht, <- Hp.
    destruct (innovation_points ts) as [|p ps],
      (innovation_points ts') as [|p' ps']; try discriminate Hp;
      reflexivity. }
  now rewrite H1, H2.
Qed.

Lemma contains_concat_map {A} (f : A -> str) (s : str) (x : A) (l : list A) :
  In x l -> contains s (f x) = true ->
  contains s (List.concat (map f l)) = true.
Proof.
  intros Hin Hc. induction l as [|y l IH]; [destruct Hin|].
  cbn [map List.concat]. destruct Hin as [->|Hin].
  - now apply contains_app_l.
  - now apply contains_app_r, IH.
Qed.

Lemma in_enumerate {A} (x : A) (l : list A) (k : nat) :
  In x l -> exists i, In (i, x) (enumerate k l).
Proof.
  revert k; induction l as [|y l IH]; intros k Hin; [destruct Hin|].
  destruct Hin as [->|Hin].
  - exists k. now left.
  - destruct (IH (S k) Hin) as [i Hi]. exists i. now right.
Qed.

Lemma contains_dependent_claim d i p :
  contains p (dependent_claim d i p) = true.
Proof.
  unfold dependent_claim. do 4 apply contains_app_r. apply contains_here.
Qed.

(** X10.  No key step and none of the first four innovation points is lost:
    every key step stands in claim 1, and the point at position k (from 0,
    below 4) stands in the claim at position k + 1, which is numbered
    k + 2. *)
Theorem steps_and_points_stand_in_claims d ts :
  technical_solution d = Some ts ->
  exists claims, _generate_claims_from_disclosure d = Ok claims
    /\ (forall step, In step (key_steps ts) ->
        exists c rest, claims = c :: rest /\ contains step c = true)
    /\ (forall k p, k < 4 -> nth_error (innovation_points ts) k = Some p ->
        nth_error claims (S k) = Some (dependent_claim d (k + 2) p)
        /\ contains p (dependent_claim d (k + 2) p) = true
        /\ claim_number (dependent_claim d (k + 2) p) = Some (k + 2)).
Proof.
  intros Hts. eexists. split; [exact (generate_claims_present d ts Hts)|].
  split.
  - intros step Hin. eexists; eexists. split; [reflexivity|].
    rewrite independent_claim_closed.
    destruct (key_steps ts) as [|s0 ss] eqn:E; [destruct Hin|].
    cbn [truthy]. do 4 apply contains_app_r.
    destruct (in_enumerate step (s0 :: ss) 0 Hin) as [i Hi].
    apply (contains_concat_map _ step (i, step) _ Hi).
    unfold step_clause. do 3 apply contains_app_r. apply contains_here.
  - intros k p Hk Hnth.
    split; [|split; [apply contains_dependent_claim
                    |apply claim_number_dependent; lia]].
    cbn [nth_error]. unfold dependent_claims.
    destruct (innovation_points ts) as [|p1 [|p2 [|p3 [|p4 rest]]]];
      destruct k as [|[|[|[|k]]]]; try lia;
      cbn [nth_error] in Hnth; try discriminate Hnth;
      injection Hnth as <-; reflexivity.
Qed.

End ClaimExtras.

(* ================================================================== *)
(** * Further properties: the normalizer *)
(* ================================================================== *)

Section NormalizerExtras.

(** X11.  The normalizer types a disclosure as a utility model or a design
    exactly on these two strings, as an invention otherwise; and the
    validator applies its utility-model figure rule exactly to the
    disclosures the normalizer types as utility models. *)
Theorem request_type_matches_validator d ts :
  technical_solution d = Some ts ->
  exists request, disclosure_to_patent_request d = Ok request
    /\ (PatentSchemas.patent_type request = UTILITY_MODEL <->
        patent_type d = utf8 "utility_model")
    /\ (PatentSchemas.patent_type request = DESIGN <->
        patent_type d = utf8 "design")
    /\ (PatentSchemas.patent_type request = INVENTION <->
        patent_type d <> utf8 "utility_model"
        /\ patent_type d <> utf8 "design")
    /\ (utility_model_figures_fails d = true <->
        PatentSchemas.patent_type request = UTILITY_MODEL
        /\ figure_descriptions d = []).
Proof.
  intros Hts. unfold disclosure_to_patent_request. rewrite Hts.
  cbn [deref bind]. eexists. split; [reflexivity|].
  cbn [PatentSchemas.patent_type]. unfold patent_type_of.
  rewrite utility_model_figures_fails_iff.
  assert (Hne : utf8 "utility_model" <> utf8 "design").
  { intros H. apply str_eqb_eq in H. vm_compute in H. discriminate H. }
  destruct (str_eqb (patent_type d) (utf8 "utility_model")) eqn:E1.
  - apply str_eqb_eq in E1. rewrite E1.
    repeat split; intros; try discriminate; try congruence; tauto.
  - assert (N1 : patent_type d <> utf8 "utility_model").
    { intros H. apply str_eqb_eq in H. congruence. }
    destruct (str_eqb (patent_type d) (utf8 "design")) eqn:E2.
    + apply str_eqb_eq in E2.
      repeat split; intros; try discriminate; try congruence; try tauto.
      destruct H as [H _]; discriminate H.
    + assert (N2 : patent_type d <> utf8 "design").
      { intros H. apply str_eqb_eq in H. congruence. }
      repeat split; intros; try discriminate; try congruence; try tauto.
      destruct H as [H _]; discriminate H.
Qed.

Lemma enumerate_app {A} (a b : list A) (k : nat) :
  enumerate k (a ++ b) = enumerate k a ++ enumerate (k + len a) b.
Proof.
  revert k; induction a as [|x a IH]; intros k; simpl.
  - now rewrite Nat.add_0_r.
  - rewrite IH. unfold len. simpl. now rewrite Nat.add_succ_r.
Qed.

Lemma problems_loop (ps : list (nat * TechnicalProblem)) (acc : str) :
  for_ ps (fun '(i, problem) problems_text =>
    let problems_text :=
      problems_text ++ str_of_nat i ++ utf8 ". " ++ description problem in
    let problems_text :=
      if truthy_opt (existing_solutions problem)
      then problems_text ++ nl ++ utf8 "   现有方案："
             ++ fmt_opt (existing_solutions problem)
      else problems_text in
    let problems_text :=
      if truthy_opt (limitations problem)
      then problems_text ++ nl ++ utf8 "   局限性："
             ++ fmt_opt (limitations problem)
      else problems_text in
    problems_text ++ nl ++ nl) acc
  = acc ++ List.concat (map (fun '(i, problem) => problem_block i problem) ps).
Proof.
  unfold for_. revert acc; induction ps as [|[i p] ps IH]; intros acc;
    cbn [fold_left map List.concat].
  - now rewrite app_nil_r.
  - rewrite IH. unfold problem_block.
    destruct (truthy_opt (existing_solutions p)),
      (truthy_opt (limitations p)); cbv zeta;
      rewrite ?app_nil_r; now rewrite <- !app_assoc.
Qed.

(** X12.  The problems text is one block per problem, numbered from 1 in the
    order of the list; a further problem appends its block and leaves the
    text before it as it was. *)
Theorem problems_text_blocks (problems : list TechnicalProblem)
  (problem : TechnicalProblem) :
  problems_text_of problems
  = List.concat (map (fun '(i, p) => problem_block i p)
                   (enumerate 1 problems))
  /\ problems_text_of (problems ++ [problem])
     = problems_text_of problems
       ++ problem_block (S (len problems)) problem.
Proof.
  assert (H : forall ps, problems_text_of ps
    = List.concat (map (fun '(i, p) => problem_block i p) (enumerate 1 ps))).
  { intros ps. unfold problems_text_of. now rewrite problems_loop. }
  split; [apply H|].
  rewrite !H, enumerate_app, map_app, concat_app.
  cbn [enumerate map List.concat]. now rewrite app_nil_r.
Qed.

End NormalizerExtras.

(* ================================================================== *)
(** * Further properties: the pipeline *)
(* ================================================================== *)

(** Predicates on the text under construction that appending keeps. *)
Section GrowingText.

Variable P : str -> Prop.

Lemma for_keeps {A} (xs : list A) (body : A -> str -> str) (acc : str) :
  (forall x a, P a -> P (body x a)) -> P acc -> P (for_ xs body acc).
Proof.
  intros Hbody. unfold for_. revert acc.
  induction xs as [|x xs IH]; intros acc Hacc; simpl; [exact Hacc|].
  apply IH, Hbody, Hacc.
Qed.

Lemma for_reaches {A} (xs : list A) (body : A -> str -> str) (acc : str)
  (x : A) :
  In x xs -> (forall a, P (body x a)) ->
  (forall y a, P a -> P (body y a)) -> P (for_ xs body acc).
Proof.
  intros Hin Hx Hbody. unfold for_. revert acc.
  induction xs as [|y xs IH]; intros acc; [destruct Hin|].
  simpl. destruct Hin as [->|Hin].
  - apply (for_keeps xs body _ Hbody), Hx.
  - now apply IH.
Qed.

End GrowingText.

Lemma begins_with_app c a b : begins_with c a -> begins_with c (a ++ b).
Proof. intros [rest ->]. now exists (rest ++ b). Qed.

Lemma has_app s a b : has s a -> has s (a ++ b).
Proof. apply contains_app_l. Qed.

Lemma has_app_r s a b : has s b -> has s (a ++ b).
Proof. apply contains_app_r. Qed.

Lemma has_mid_r s b : has s (s ++ b).
Proof. apply contains_here. Qed.

Lemma has_mid s a b : has s (a ++ s ++ b).
Proof. apply contains_mid. Qed.

(** Walk down the left spine of a text built by appending. *)
Ltac keep_step app_lemma :=
  lazymatch goal with
  | |- _ (for_ _ _ _) =>
      apply for_keeps;
      [ let x := fresh "x" in let a := fresh "a" in let Ha := fresh "Ha" in
        intros x a Ha; try (destruct x); cbv beta iota zeta | ]
  | |- _ (_ ++ _) => apply app_lemma
  | |- _ (if ?c then _ else _) => destruct c
  end.

Ltac keep app_lemma := repeat first [assumption | keep_step app_lemma].

Section PipelineExtras.

Variable writer :
  PatentDraftRequest -> ApplicantInfo -> list InventorInfo -> PatentApplication.

(** [format_text] returns whenever the solution is present, and its text
    begins with the banner. *)
Lemma format_text_present application d ts :
  technical_solution d = Some ts ->
  exists text, format_text application d = Ok text
    /\ begins_with 61%N text.
Proof.
  intros Hts. unfold format_text. rewrite Hts. cbn [deref bind].
  rewrite (generate_claims_present d ts Hts). cbn [bind].
  eexists. split; [reflexivity|]. cbv zeta.
  keep (begins_with_app 61%N).
  all: eexists; reflexivity.
Qed.

(** The two ways [generate_enhanced_patent] ends when the solution is
    present. *)
Lemma generate_enhanced_patent_cases d ts t :
  technical_solution d = Some ts ->
  exists r, validate_disclosure d = Ok r
    /\ ((is_valid r = false
         /\ generate_enhanced_patent writer d t
            = (Ok (validation_failure_message (Some r)), t))
        \/ (is_valid r = true
            /\ exists request text,
                 disclosure_to_patent_request d = Ok request
                 /\ format_text
                      (PatentSchemas.set_title
                         (writer request (applicant_info_of d)
                            (inventor_info_of d)) (title d)) d = Ok text
                 /\ begins_with 61%N text
                 /\ generate_enhanced_patent writer d t
                    = (Ok text,
                       t ++ [GeneratePatentApplication request
                               (applicant_info_of d) (inventor_info_of d);
                             FormatEnhancedApplication
                               (PatentSchemas.set_title
                                  (writer request (applicant_info_of d)
                                     (inventor_info_of d)) (title d)) d]))).
Proof.
  intros Hts.
  destruct (validate_disclosure_present d ts Hts) as (r & Hr & _).
  exists r. split; [exact Hr|].
  destruct (is_valid r) eqn:Hv.
  - right. split; [reflexivity|].
    destruct (disclosure_to_patent_request_present d ts Hts) as [request Hreq].
    destruct (format_text_present
                (PatentSchemas.set_title
                   (writer request (applicant_info_of d) (inventor_info_of d))
                   (title d)) d ts Hts) as (text & Htext & Hb).
    exists request, text. split; [exact Hreq|]. split; [exact Htext|].
    split; [exact Hb|].
    unfold generate_enhanced_patent, process_disclosure, pbind, lift.
    rewrite Hr. cbv beta iota. rewrite Hv. cbn [negb].
    rewrite (assemble_application_ok writer d request (Some r) t Hreq).
    unfold _format_enhanced_application, pbind, emit, lift.
    rewrite Htext, <- app_assoc. reflexivity.
  - left. split; [reflexivity|].
    unfold generate_enhanced_patent, process_disclosure, pbind, lift.
    rewrite Hr. cbv beta iota. rewrite Hv. reflexivity.
Qed.

End PipelineExtras.

Section PipelineExtraTheorems.

Variable writer :
  PatentDraftRequest -> ApplicantInfo -> list InventorInfo -> PatentApplication.

(** X13.  With validation on, an application is returned only for a disclosure
    the validator accepts: the result returned with it is valid and has no
    error, the application carries the disclosure's title, and the writer
    was called exactly once. *)
Theorem returned_application_implies_valid d t application validation t' :
  process_disclosure writer d true t
  = (Ok (Some application, validation), t') ->
  exists r request,
    validation = Some r
    /\ validate_disclosure d = Ok r
    /\ is_valid r = true /\ errors r = []
    /\ disclosure_to_patent_request d = Ok request
    /\ application
       = PatentSchemas.set_title
           (writer request (applicant_info_of d) (inventor_info_of d))
           (title d)
    /\ PatentSchemas.app_title application = title d
    /\ t' = t ++ [GeneratePatentApplication request (applicant_info_of d)
                    (inventor_info_of d)].
Proof.
  unfold process_disclosure, pbind, lift.
  destruct (validate_disclosure d) as [r|e] eqn:Hr; [|discriminate].
  destruct (is_valid r) eqn:Hv; cbn [negb]; [|discriminate].
  destruct (validate_disclosure_ok_inv d r Hr) as [ts Hts].
  destruct (disclosure_to_patent_request_present d ts Hts) as [request Hreq].
  rewrite (assemble_application_ok writer d request (Some r) t Hreq).
  intros H. injection H as <- <- <-.
  exists r, request. repeat split; try assumption; try reflexivity.
  destruct (validate_disclosure_ok d r Hr) as (Hv' & He & _).
  rewrite Hv' in Hv. rewrite He. apply Nat.eqb_eq in Hv.
  destruct (errors_of d); [reflexivity|discriminate].
Qed.

(** X14.  For a disclosure the validator accepts, the [validate] flag changes
    only the second component: the same application after the same single
    call of the writer. *)
Theorem validate_flag_only_adds_result d r t :
  validate_disclosure d = Ok r -> is_valid r = true ->
  exists application t',
    process_disclosure writer d true t
    = (Ok (Some application, Some r), t')
    /\ process_disclosure writer d false t
       = (Ok (Some application, None), t')
    /\ PatentSchemas.app_title application = title d.
Proof.
  intros Hr Hv.
  destruct (validate_disclosure_ok_inv d r Hr) as [ts Hts].
  destruct (disclosure_to_patent_request_present d ts Hts) as [request Hreq].
  eexists; eexists. unfold process_disclosure, pbind, lift.
  rewrite Hr. cbv beta iota. rewrite Hv. cbn [negb].
  rewrite !(assemble_application_ok writer d request _ t Hreq).
  repeat split; reflexivity.
Qed.

(** X15.  [generate_enhanced_patent] ends in one of three ways: it raises
    [AttributeError] without any assembly call when the solution is
    absent; it returns the failure message without any assembly call when
    the disclosure is invalid; it returns the formatted document after one
    call of the writer and one of the formatter when it is valid. *)
Theorem generate_enhanced_patent_outcomes d t :
  (technical_solution d = None
   /\ generate_enhanced_patent writer d t = (Raise AttributeError, t))
  \/ (exists r, validate_disclosure d = Ok r /\ is_valid r = false
        /\ generate_enhanced_patent writer d t
           = (Ok (validation_failure_message (Some r)), t))
  \/ (exists r request application text,
        validate_disclosure d = Ok r /\ is_valid r = true
        /\ PatentSchemas.app_title application = title d
        /\ format_text application d = Ok text
        /\ generate_enhanced_patent writer d t
           = (Ok text,
              t ++ [GeneratePatentApplication request (applicant_info_of d)
                      (inventor_info_of d);
                    FormatEnhancedApplication application d])).
Proof.
  destruct (technical_solution d) as [ts|] eqn:Hts.
  - right.
    destruct (generate_enhanced_patent_cases writer d ts t Hts)
      as (r & Hr & [[Hv Hg]|(Hv & request & text & _ & Htext & _ & Hg)]).
    + left. exists r. auto.
    + right. exists r, request. eexists. exists text.
      split; [exact Hr|]. split; [exact Hv|]. split; [|split; eassumption].
      reflexivity.
  - left. split; [reflexivity|].
    unfold generate_enhanced_patent, pbind.
    now rewrite (process_disclosure_absent writer d true t Hts).
Qed.

(** X16.  The text [generate_enhanced_patent] returns begins with the failure
    header exactly when the disclosure is invalid; the document begins
    with the banner instead. *)
Theorem failure_message_is_recognisable d ts t :
  technical_solution d = Some ts ->
  exists r text t',
    validate_disclosure d = Ok r
    /\ generate_enhanced_patent writer d t = (Ok text, t')
    /\ startswith (utf8 "交底书验证失败：") text = negb (is_valid r)
    /\ startswith (utf8 "=") text = is_valid r.
Proof.
  intros Hts.
  destruct (generate_enhanced_patent_cases writer d ts t Hts)
    as (r & Hr & [[Hv Hg]|(Hv & request & text & _ & _ & [rest ->] & Hg)]).
  - exists r. eexists; eexists. split; [exact Hr|]. split; [exact Hg|].
    rewrite Hv, validation_failure_message_lists. split.
    + apply startswith_app_l. apply startswith_app.
    + reflexivity.
  - exists r. eexists; eexists. split; [exact Hr|]. split; [exact Hg|].
    rewrite Hv. split; reflexivity.
Qed.

End PipelineExtraTheorems.

Section DocumentContents.

(** X17.  The document holds every claim of the claim set, every key step and
    every innovation point, those after the fourth included. *)
Theorem document_holds_claims_steps_points application d ts :
  technical_solution d = Some ts ->
  exists text claims,
    format_text application d = Ok text
    /\ _generate_claims_from_disclosure d = Ok claims
    /\ (forall claim, In claim claims -> contains claim text = true)
    /\ (forall step, In step (key_steps ts) -> contains step text = true)
    /\ (forall point, In point (innovation_points ts) ->
        contains point text = true).
Proof.
  intros Hts. unfold format_text. rewrite Hts. cbn [deref bind].
  rewrite (generate_claims_present d ts Hts). cbn [bind].
  eexists; eexists. split; [reflexivity|]. split; [reflexivity|].
  cbv zeta. split; [|split].
  - intros claim Hin.
    match goal with |- contains ?s ?t = true => change (has s t) end.
    repeat (apply has_app).
    apply (for_reaches (has claim) _ _ _ claim Hin).
    + intros a. apply has_mid.
    + intros y a Ha. now apply has_app.
  - intros step Hin.
    destruct (key_steps ts) as [|s0 ss] eqn:E; [destruct Hin|].
    destruct (in_enumerate step (s0 :: ss) 1 Hin) as [i Hi].
    match goal with |- contains ?s ?t = true => change (has s t) end.
    cbn [truthy].
    repeat first
      [ assumption
      | solve [ apply (for_reaches (has step) _ _ _ (i, step) Hi);
                [ intros a; cbv beta iota zeta;
                  do 4 apply has_app_r; apply has_mid_r
                | intros [j y] a Ha; cbv beta iota zeta; now apply has_app ] ]
      | keep_step has_app ].
  - intros point Hin.
    destruct (innovation_points ts) as [|p0 ps] eqn:E; [destruct Hin|].
    destruct (in_enumerate point (p0 :: ps) 1 Hin) as [i Hi].
    match goal with |- contains ?s ?t = true => change (has s t) end.
    cbn [truthy].
    repeat first
      [ assumption
      | solve [ apply (for_reaches (has point) _ _ _ (i, point) Hi);
                [ intros a; cbv beta iota zeta;
                  do 4 apply has_app_r; apply has_mid_r
                | intros [j y] a Ha; cbv beta iota zeta; now apply has_app ] ]
      | keep_step has_app ].
Qed.

End DocumentContents.

(* ================================================================== *)
(** * Further properties: the agent tools *)
(* ================================================================== *)

Lemma stripped_pieces_not_nil sep s :
  DisclosureAgent.stripped_pieces sep s <> [].
Proof.
  unfold DisclosureAgent.stripped_pieces.
  pose proof (split_not_nil sep s). destruct (PyStr.split sep s);
    [contradiction|discriminate].
Qed.

Lemma nonblank_pieces_nil sep s :
  DisclosureAgent.nonblank_pieces sep s = [] <->
  forallb blank (PyStr.split sep s) = true.
Proof.
  unfold DisclosureAgent.nonblank_pieces.
  induction (PyStr.split sep s) as [|x l IH]; simpl; [tauto|].
  destruct (blank x) eqn:E.
  - rewrite (proj2 (strip_nil_iff x) E). simpl. exact IH.
  - destruct (strip x) eqn:Es.
    + apply strip_nil_iff in Es. congruence.
    + simpl. split; discriminate.
Qed.

Lemma validation_tool_inventors_pass
  (title0 inventors0 applicant0 field0 background0 problems0 solution0
   effects0 type0 : str) :
  inventors_fails
    (DisclosureAgent.validation_disclosure title0 inventors0 applicant0
       field0 background0 problems0 solution0 effects0 type0) = false.
Proof.
  unfold inventors_fails.
  cbn [DisclosureAgent.validation_disclosure inventors].
  pose proof (stripped_pieces_not_nil PyStr.comma inventors0).
  destruct (DisclosureAgent.stripped_pieces PyStr.comma inventors0);
    [contradiction|reflexivity].
Qed.

Lemma validation_tool_effects_pass
  (title0 inventors0 applicant0 field0 background0 problems0 solution0
   effects0 type0 : str) :
  beneficial_effects_fails
    (DisclosureAgent.validation_disclosure title0 inventors0 applicant0
       field0 background0 problems0 solution0 effects0 type0) = false.
Proof.
  unfold beneficial_effects_fails.
  cbn [DisclosureAgent.validation_disclosure beneficial_effects].
  pose proof (stripped_pieces_not_nil PyStr.semicolon effects0).
  destruct (DisclosureAgent.stripped_pieces PyStr.semicolon effects0);
    [contradiction|reflexivity].
Qed.

Lemma validation_report_begins r :
  begins_with 61%N (DisclosureAgent.validation_report r).
Proof.
  unfold DisclosureAgent.validation_report. cbv zeta.
  keep (begins_with_app 61%N).
  all: eexists; reflexivity.
Qed.

Section AgentTools.

Variable str_of_exn : exn -> str.

(** X18.  Through the validation tool the checks on inventors, technical
    problems, solution and beneficial effects cannot fail, whatever the
    strings are; both warnings and all three suggestions are always made,
    so the score is at most 90; a utility model is always invalid; and the
    tool returns the report, never the text of its exception handler. *)
Theorem validation_tool_findings
  (title0 inventors0 applicant0 field0 background0 problems0 solution0
   effects0 type0 : str) :
  let d := DisclosureAgent.validation_disclosure title0 inventors0
             applicant0 field0 background0 problems0 solution0 effects0
             type0 in
  exists r, validate_disclosure d = Ok r
    /\ DisclosureAgent.validate_disclosure str_of_exn title0 inventors0
         applicant0 field0 background0 problems0 solution0 effects0 type0
       = DisclosureAgent.validation_report r
    /\ startswith (utf8 "验证交底书时发生错误：")
         (DisclosureAgent.validation_report r) = false
    /\ ~ In msg_inventors (errors r)
    /\ ~ In msg_technical_problems (errors r)
    /\ ~ In msg_solution_absent (errors r)
    /\ ~ In msg_beneficial_effects (errors r)
    /\ warnings r = [msg_embodiments; msg_figures]
    /\ suggestions r
       = [msg_innovation_points; msg_prior_art; msg_contact_email]
    /\ (completeness_score r <= 90)%Z
    /\ (type0 = utf8 "utility_model" -> is_valid r = false).
Proof.
  intros d.
  destruct (validate_disclosure_present d _ eq_refl)
    as (r & Hr & Hv & He & Hw & Hs).
  exists r. split; [exact Hr|].
  split.
  { unfold DisclosureAgent.validate_disclosure. fold d. now rewrite Hr. }
  split.
  { destruct (validation_report_begins r) as [rest ->]. reflexivity. }
  assert (Hinv : inventors_fails d = false)
    by apply validation_tool_inventors_pass.
  assert (Heff : beneficial_effects_fails d = false)
    by apply validation_tool_effects_pass.
  rewrite He, Hw, Hs, Hv.
  rewrite (validate_disclosure_suggestions d _ r eq_refl Hr).
  repeat split.
  - intros H. rewrite in_errors_of in H. split_cases; try (msg_discr H).
    congruence.
  - intros H. rewrite in_errors_of in H. split_cases; try (msg_discr H).
    discriminate.
  - intros H. rewrite in_errors_of in H. split_cases; try (msg_discr H).
    discriminate.
  - intros H. rewrite in_errors_of in H. split_cases; try (msg_discr H).
    congruence.
  - unfold clamp, raw_score.
    change (embodiments_fails d) with true.
    change (figures_fails d) with true. cbn [penalty].
    pose proof (penalty_nonneg (title_fails d) 15).
    pose proof (penalty_nonneg (inventors_fails d) 10).
    pose proof (penalty_nonneg (applicant_name_fails d) 10).
    pose proof (penalty_nonneg (technical_field_fails d) 10).
    pose proof (penalty_nonneg (background_fails d) 10).
    pose proof (penalty_nonneg (technical_problems_fails d) 15).
    pose proof (penalty_nonneg (beneficial_effects_fails d) 10).
    pose proof (penalty_nonneg (utility_model_figures_fails d) 10).
    assert (0 <= solution_penalty d)%Z.
    { unfold solution_penalty. cbn [d DisclosureAgent.validation_disclosure
        technical_solution overview].
      destruct (truthy solution0); simpl; lia. }
    lia.
  - intros Hty. apply Nat.eqb_neq. intros Hlen.
    assert (Hin : In msg_utility_model_figures (errors_of d)).
    { apply in_errors_of. do 9 right. split; [|reflexivity].
      apply utility_model_figures_fails_iff. split; [exact Hty|reflexivity]. }
    destruct (errors_of d); [destruct Hin|discriminate Hlen].
Qed.

End AgentTools.

(** Find a finding in the loop that lists it, else keep walking. *)
Ltac find_listed x Hin :=
  repeat first
    [ assumption
    | solve [ apply (for_reaches (has x) _ _ _ x Hin);
              [ intros a; do 2 apply has_app_r; apply has_mid_r
              | intros y a Ha; now apply has_app ] ]
    | keep_step has_app ].

(** X19.  The report lists every error, warning and suggestion of the result,
    shows the score with one decimal, and says that validation passed when
    the result is valid. *)
Theorem validation_report_lists_findings (r : DisclosureValidationResult) :
  (forall e, In e (errors r) ->
   contains e (DisclosureAgent.validation_report r) = true)
  /\ (forall w, In w (warnings r) ->
      contains w (DisclosureAgent.validation_report r) = true)
  /\ (forall s, In s (suggestions r) ->
      contains s (DisclosureAgent.validation_report r) = true)
  /\ contains (PyStr.fmt_1f (completeness_score r) ++ utf8 "/100")
       (DisclosureAgent.validation_report r) = true
  /\ (is_valid r = true ->
      contains (utf8 "验证通过") (DisclosureAgent.validation_report r) = true)
  /\ (is_valid r = false ->
      contains (utf8 "验证未通过") (DisclosureAgent.validation_report r) = true).
Proof.
  unfold DisclosureAgent.validation_report. cbv zeta.
  split; [|split; [|split; [|split; [|split]]]].
  - intros e Hin. destruct (errors r) as [|e0 es] eqn:E; [destruct Hin|].
    match goal with |- contains ?s ?t = true => change (has s t) end.
    cbn [truthy]. find_listed e Hin.
  - intros w Hin. destruct (warnings r) as [|w0 ws] eqn:E; [destruct Hin|].
    match goal with |- contains ?s ?t = true => change (has s t) end.
    cbn [truthy]. find_listed w Hin.
  - intros s Hin. destruct (suggestions r) as [|s0 ss] eqn:E; [destruct Hin|].
    match goal with |- contains ?s ?t = true => change (has s t) end.
    cbn [truthy]. find_listed s Hin.
  - match goal with |- contains ?s ?t = true => change (has s t) end.
    repeat first
      [ assumption
      | solve [ do 2 apply has_app_r; rewrite app_assoc; apply has_mid_r ]
      | keep_step has_app ].
  - intros Hv. rewrite Hv.
    match goal with |- contains ?s ?t = true => change (has s t) end.
    repeat first
      [ assumption
      | solve [ apply has_app_r; apply has_app; vm_compute; reflexivity ]
      | keep_step has_app ].
  - intros Hv. rewrite Hv.
    match goal with |- contains ?s ?t = true => change (has s t) end.
    repeat first
      [ assumption
      | solve [ apply has_app_r; apply has_app; vm_compute; reflexivity ]
      | keep_step has_app ].
Qed.

Section GenerationTool.

Variable str_of_exn : exn -> str.
Variable writer :
  PatentDraftRequest -> ApplicantInfo -> list InventorInfo -> PatentApplication.

Variables title0 inventors0 applicant0 field0 background0 problems0
  solution0 : str.
Variables steps0 points0 : option str.
Variable effects0 : str.
Variables embodiments0 figures0 : option str.
Variable type0 : str.
Variables address0 email0 : option str.

Let d := DisclosureAgent.generation_disclosure title0 inventors0 applicant0
  field0 background0 problems0 solution0 steps0 points0 effects0
  embodiments0 figures0 type0 address0 email0.

Let tool := DisclosureAgent.process_disclosure_to_patent str_of_exn writer
  title0 inventors0 applicant0 field0 background0 problems0 solution0
  steps0 points0 effects0 embodiments0 figures0 type0 address0 email0.

(** X20.  The generation tool returns what [generate_enhanced_patent] returns
    on the disclosure it builds: the failure message or the document,
    never the text of its exception handler. *)
Theorem generation_tool_outcomes (t : trace) :
  exists r text t',
    validate_disclosure d = Ok r
    /\ tool t = (Ok text, t')
    /\ generate_enhanced_patent writer d t = (Ok text, t')
    /\ startswith (utf8 "处理交底书时发生错误：") text = false
    /\ startswith (utf8 "交底书验证失败：") text = negb (is_valid r)
    /\ (is_valid r = false -> t' = t)
    /\ (is_valid r = true -> exists e1 e2, t' = t ++ [e1; e2]).
Proof.
  destruct (generate_enhanced_patent_cases writer d _ t eq_refl)
    as (r & Hr & [[Hv Hg]|(Hv & request & text & _ & _ & [rest ->] & Hg)]).
  - exists r. eexists; eexists. split; [exact Hr|].
    split; [|split; [exact Hg|]].
    { unfold tool, DisclosureAgent.process_disclosure_to_patent.
      fold d. now rewrite Hg. }
    rewrite Hv, validation_failure_message_lists.
    split; [reflexivity|]. split.
    + apply startswith_app_l. apply startswith_app.
    + split; [reflexivity|discriminate].
  - exists r. eexists; eexists. split; [exact Hr|].
    split; [|split; [exact Hg|]].
    { unfold tool, DisclosureAgent.process_disclosure_to_patent.
      fold d. now rewrite Hg. }
    rewrite Hv. split; [reflexivity|]. split; [reflexivity|].
    split; [discriminate|]. intros _. eexists; eexists; reflexivity.
Qed.

(** X21.  The two tools split the inventors differently.  The validation tool
    never reports the inventor error; the generation tool reports it
    exactly when every comma-separated piece of the inventors string is
    blank, the empty string included, and then returns the failure message
    without any assembly call.  The same holds for the beneficial effects
    and the semicolon. *)
Theorem tools_differ_on_blank_lists (t : trace) :
  exists r0 r,
    validate_disclosure
      (DisclosureAgent.validation_disclosure title0 inventors0 applicant0
         field0 background0 problems0 solution0 effects0 type0) = Ok r0
    /\ validate_disclosure d = Ok r
    /\ ~ In msg_inventors (errors r0)
    /\ ~ In msg_beneficial_effects (errors r0)
    /\ (In msg_inventors (errors r) <->
        forallb blank (PyStr.split PyStr.comma inventors0) = true)
    /\ (In msg_beneficial_effects (errors r) <->
        forallb blank (PyStr.split PyStr.semicolon effects0) = true)
    /\ (In msg_inventors (errors r) \/ In msg_beneficial_effects (errors r) ->
        tool t = (Ok (validation_failure_message (Some r)), t)).
Proof.
  destruct (validate_disclosure_present
              (DisclosureAgent.validation_disclosure title0 inventors0
                 applicant0 field0 background0 problems0 solution0 effects0
                 type0) _ eq_refl) as (r0 & Hr0 & _ & He0 & _).
  destruct (validate_disclosure_present d _ eq_refl)
    as (r & Hr & Hv & He & _).
  exists r0, r. split; [exact Hr0|]. split; [exact Hr|].
  rewrite He0, He.
  assert (Hinv : In msg_inventors (errors_of d) <->
                 forallb blank (PyStr.split PyStr.comma inventors0) = true).
  { rewrite <- nonblank_pieces_nil.
    change (DisclosureAgent.nonblank_pieces PyStr.comma inventors0)
      with (inventors d).
    rewrite <- (fails_nil (inventors d)). split; intros H.
    - rewrite in_errors_of in H. split_cases; try (msg_discr H). assumption.
    - apply in_errors_of. right; left. split; [exact H|reflexivity]. }
  assert (Heff : In msg_beneficial_effects (errors_of d) <->
                 forallb blank (PyStr.split PyStr.semicolon effects0) = true).
  { rewrite <- nonblank_pieces_nil.
    change (DisclosureAgent.nonblank_pieces PyStr.semicolon effects0)
      with (beneficial_effects d).
    rewrite <- (fails_nil (beneficial_effects d)). split; intros H.
    - rewrite in_errors_of in H. split_cases; try (msg_discr H). assumption.
    - apply in_errors_of. do 8 right. left. split; [exact H|reflexivity]. }
  split; [|split; [|split; [exact Hinv|split; [exact Heff|]]]].
  - intros H. rewrite in_errors_of in H. split_cases; try (msg_discr H).
    match goal with E : inventors_fails _ = true |- _ =>
      rewrite validation_tool_inventors_pass in E; discriminate E end.
  - intros H. rewrite in_errors_of in H. split_cases; try (msg_discr H).
    match goal with E : beneficial_effects_fails _ = true |- _ =>
      rewrite validation_tool_effects_pass in E; discriminate E end.
  - intros Hin.
    assert (Hinvalid : is_valid r = false).
    { rewrite Hv. apply Nat.eqb_neq. intros Hlen.
      destruct (errors_of d); [destruct Hin as [[]|[]]|discriminate Hlen]. }
    unfold tool, DisclosureAgent.process_disclosure_to_patent. fold d.
    destruct (generate_enhanced_patent_cases writer d _ t eq_refl)
      as (r' & Hr' & [[_ Hg]|(Hv' & _)]).
    + rewrite Hr in Hr'. injection Hr' as <-. now rewrite Hg.
    + rewrite Hr in Hr'. injection Hr' as <-. congruence.
Qed.

End GenerationTool.

(* ================================================================== *)
(** * The further properties at concrete disclosures *)
(* ================================================================== *)

Section ExtraInstances.

Lemma score_separates_validity_witness :
  technical_solution scenario_B = Some sample_solution
  /\ exists r, validate_disclosure scenario_B = Ok r
       /\ (is_valid r = true ->
           completeness_score r
           = (100 - penalty (embodiments_fails scenario_B) 5
              - penalty (figures_fails scenario_B) 5)%Z
           /\ (90 <= completeness_score r)%Z)
       /\ (is_valid r = false -> (completeness_score r <= 90)%Z)
       /\ (exists k, completeness_score r = (5 * k)%Z).
Proof.
  split; [reflexivity|].
  exact (score_separates_validity scenario_B sample_solution eq_refl).
Defined.

Lemma findings_reported_exactly_witness :
  technical_solution scenario_B = Some sample_solution
  /\ exists r, validate_disclosure scenario_B = Ok r
    /\ (In msg_title (errors r) <-> len (strip (title scenario_B)) < 5)
    /\ (In msg_inventors (errors r) <-> inventors scenario_B = [])
    /\ (In msg_applicant_name (errors r) <-> applicant_name scenario_B = [])
    /\ (In msg_technical_field (errors r) <->
        len (strip (technical_field scenario_B)) < 10)
    /\ (In msg_background (errors r) <->
        len (strip (background_description scenario_B)) < 50)
    /\ (In msg_technical_problems (errors r) <->
        technical_problems scenario_B = [])
    /\ (In msg_overview_absent (errors r) <-> overview sample_solution = [])
    /\ (In msg_beneficial_effects (errors r) <->
        beneficial_effects scenario_B = [])
    /\ (In msg_utility_model_figures (errors r) <->
        patent_type scenario_B = utf8 "utility_model"
        /\ figure_descriptions scenario_B = [])
    /\ (In msg_embodiments (warnings r) <-> embodiments scenario_B = [])
    /\ (In msg_figures (warnings r) <-> figure_descriptions scenario_B = [])
    /\ (In msg_innovation_points (suggestions r) <->
        innovation_points sample_solution = [])
    /\ (In msg_prior_art (suggestions r) <->
        prior_art_references scenario_B = [])
    /\ (In msg_contact_email (suggestions r) <->
        contact_email scenario_B = None \/ contact_email scenario_B = Some []).
Proof.
  split; [reflexivity|].
  exact (findings_reported_exactly scenario_B sample_solution eq_refl).
Defined.

Lemma absent_solution_message_never_returned_witness :
  exists r, validate_disclosure scenario_A = Ok r
    /\ ~ In msg_solution_absent (errors r).
Proof.
  eexists. split; [vm_compute; reflexivity|].
  apply (absent_solution_message_never_returned scenario_A).
  vm_compute; reflexivity.
Defined.

Lemma utility_model_error_implies_figure_warning_witness :
  exists r, validate_disclosure scenario_B = Ok r
    /\ In msg_utility_model_figures (errors r)
    /\ In msg_figures (warnings r).
Proof.
  eexists. split; [vm_compute; reflexivity|].
  assert (H : In msg_utility_model_figures [msg_utility_model_figures])
    by (left; reflexivity).
  split; [exact H|].
  apply (utility_model_error_implies_figure_warning scenario_B);
    [vm_compute; reflexivity|exact H].
Defined.

Lemma surrounding_whitespace_is_ignored_witness :
  blank (utf8 "  ") = true /\ blank nl = true
  /\ validate_disclosure
       (with_title scenario_A (utf8 "  " ++ title scenario_A ++ nl))
     = validate_disclosure scenario_A
  /\ validate_disclosure
       (with_technical_field scenario_A
          (utf8 "  " ++ technical_field scenario_A ++ nl))
     = validate_disclosure scenario_A
  /\ validate_disclosure
       (with_background_description scenario_A
          (utf8 "  " ++ background_description scenario_A ++ nl))
     = validate_disclosure scenario_A.
Proof.
  split; [reflexivity|]. split; [reflexivity|].
  exact (surrounding_whitespace_is_ignored scenario_A (utf8 "  ") nl
           eq_refl eq_refl).
Defined.

Lemma blank_text_is_rejected_witness :
  exists r,
    validate_disclosure blank_title_sample = Ok r
    /\ (blank (title blank_title_sample) = true -> In msg_title (errors r))
    /\ (blank (technical_field blank_title_sample) = true ->
        In msg_technical_field (errors r))
    /\ (blank (background_description blank_title_sample) = true ->
        In msg_background (errors r))
    /\ (applicant_name blank_title_sample <> [] ->
        ~ In msg_applicant_name (errors r)).
Proof.
  eexists. split; [vm_compute; reflexivity|].
  refine (blank_text_is_rejected blank_title_sample _ _).
  vm_compute; reflexivity.
Defined.

Lemma findings_bounded_without_duplicates_witness :
  exists r, validate_disclosure maximally_deficient = Ok r
    /\ NoDup (errors r) /\ len (errors r) <= 9
    /\ NoDup (warnings r) /\ len (warnings r) <= 2
    /\ NoDup (suggestions r) /\ len (suggestions r) <= 3.
Proof.
  eexists. split; [vm_compute; reflexivity|].
  apply (findings_bounded_without_duplicates maximally_deficient).
  vm_compute; reflexivity.
Defined.

Lemma claim_numbers_contiguous_iff_witness :
  technical_solution four_points
  = Some (with_innovation_points sample_solution (points_upto 4))
  /\ exists claims, _generate_claims_from_disclosure four_points = Ok claims
    /\ (map claim_number claims = map Some (seq 1 (len claims)) <->
        len (innovation_points
               (with_innovation_points sample_solution (points_upto 4))) = 0
        \/ len (innovation_points
                  (with_innovation_points sample_solution (points_upto 4)))
           = 3).
Proof.
  split; [reflexivity|].
  exact (claim_numbers_contiguous_iff four_points _ eq_refl).
Defined.

Lemma claims_read_only_witness :
  title six_points = title four_points
  /\ slice_to 4 (points_upto 6) = slice_to 4 (points_upto 4)
  /\ _generate_claims_from_disclosure six_points
     = _generate_claims_from_disclosure four_points.
Proof.
  split; [reflexivity|]. split; [vm_compute; reflexivity|].
  refine (claims_read_only six_points four_points
            (with_innovation_points sample_solution (points_upto 6))
            (with_innovation_points sample_solution (points_upto 4))
            eq_refl eq_refl eq_refl eq_refl _ _).
  - intros H. vm_compute in H. discriminate H.
  - vm_compute; reflexivity.
Defined.

Lemma steps_and_points_stand_in_claims_witness :
  technical_solution six_points
  = Some (with_innovation_points sample_solution (points_upto 6))
  /\ exists claims, _generate_claims_from_disclosure six_points = Ok claims
    /\ (forall step,
        In step (key_steps
                   (with_innovation_points sample_solution (points_upto 6))) ->
        exists c rest, claims = c :: rest /\ contains step c = true)
    /\ (forall k p, k < 4 ->
        nth_error (innovation_points
                     (with_innovation_points sample_solution (points_upto 6)))
          k = Some p ->
        nth_error claims (S k) = Some (dependent_claim six_points (k + 2) p)
        /\ contains p (dependent_claim six_points (k + 2) p) = true
        /\ claim_number (dependent_claim six_points (k + 2) p)
           = Some (k + 2)).
Proof.
  split; [reflexivity|].
  exact (steps_and_points_stand_in_claims six_points _ eq_refl).
Defined.

Lemma request_type_matches_validator_witness :
  technical_solution scenario_B = Some sample_solution
  /\ exists request, disclosure_to_patent_request scenario_B = Ok request
    /\ (PatentSchemas.patent_type request = UTILITY_MODEL <->
        patent_type scenario_B = utf8 "utility_model")
    /\ (PatentSchemas.patent_type request = DESIGN <->
        patent_type scenario_B = utf8 "design")
    /\ (PatentSchemas.patent_type request = INVENTION <->
        patent_type scenario_B <> utf8 "utility_model"
        /\ patent_type scenario_B <> utf8 "design")
    /\ (utility_model_figures_fails scenario_B = true <->
        PatentSchemas.patent_type request = UTILITY_MODEL
        /\ figure_descriptions scenario_B = []).
Proof.
  split; [reflexivity|].
  exact (request_type_matches_validator scenario_B sample_solution eq_refl).
Defined.

Lemma returned_application_implies_valid_witness :
  exists application validation t',
    process_disclosure sample_writer scenario_A true []
    = (Ok (Some application, validation), t')
    /\ exists r request,
         validation = Some r
         /\ validate_disclosure scenario_A = Ok r
         /\ is_valid r = true /\ errors r = []
         /\ disclosure_to_patent_request scenario_A = Ok request
         /\ application
            = PatentSchemas.set_title
                (sample_writer request (applicant_info_of scenario_A)
                   (inventor_info_of scenario_A))
                (title scenario_A)
         /\ PatentSchemas.app_title application = title scenario_A
         /\ t' = [] ++ [GeneratePatentApplication request
                          (applicant_info_of scenario_A)
                          (inventor_info_of scenario_A)].
Proof.
  eexists; eexists; eexists. split; [vm_compute; reflexivity|].
  refine (returned_application_implies_valid sample_writer scenario_A []
            _ _ _ _).
  vm_compute; reflexivity.
Defined.

Lemma validate_flag_only_adds_result_witness :
  exists r, validate_disclosure scenario_A = Ok r /\ is_valid r = true
    /\ exists application t',
         process_disclosure sample_writer scenario_A true []
         = (Ok (Some application, Some r), t')
         /\ process_disclosure sample_writer scenario_A false []
            = (Ok (Some application, None), t')
         /\ PatentSchemas.app_title application = title scenario_A.
Proof.
  eexists. split; [vm_compute; reflexivity|]. split; [vm_compute; reflexivity|].
  refine (validate_flag_only_adds_result sample_writer scenario_A _ [] _ _);
    vm_compute; reflexivity.
Defined.

Lemma failure_message_is_recognisable_witness :
  technical_solution scenario_B = Some sample_solution
  /\ exists r text t',
       validate_disclosure scenario_B = Ok r
       /\ generate_enhanced_patent sample_writer scenario_B [] = (Ok text, t')
       /\ startswith (utf8 "交底书验证失败：") text = negb (is_valid r)
       /\ startswith (utf8 "=") text = is_valid r.
Proof.
  split; [reflexivity|].
  exact (failure_message_is_recognisable sample_writer scenario_B
           sample_solution [] eq_refl).
Defined.

Lemma document_holds_claims_steps_points_witness :
  technical_solution six_points
  = Some (with_innovation_points sample_solution (points_upto 6))
  /\ exists text claims,
       format_text sample_application six_points = Ok text
       /\ _generate_claims_from_disclosure six_points = Ok claims
       /\ (forall claim, In claim claims -> contains claim text = true)
       /\ (forall step,
           In step (key_steps
                      (with_innovation_points sample_solution
                         (points_upto 6))) ->
           contains step text = true)
       /\ (forall point,
           In point (innovation_points
                       (with_innovation_points sample_solution
                          (points_upto 6))) ->
           contains point text = true).
Proof.
  split; [reflexivity|].
  exact (document_holds_claims_steps_points sample_application six_points _
           eq_refl).
Defined.

End ExtraInstances.
